(** * tlsfuzzer: scripts/test-renegotiation-disabled.py

    A shallow embedding of the script's [main]: option handling, the five
    conversation graphs it assembles with [add_child] / [next_sibling], the
    sampling of the tests to run, the run loop with its [try ... except
    Exception] boundary, and the final summary and exit status.

    Python values are modelled as follows.
    - [int] is [Z]; the counters [good] and [bad], which only ever grow
      from 0 by 1, are [nat].
    - [str] is [string]; [bytearray] payloads are [string]s of their bytes.
    - [set] of [str] is [gset string].
    - [dict] is an association list in insertion order with unique keys.
    - objects with mutable attributes (the graph nodes) live in a store
      and are named by their address.
    - a raised exception is a value of [Py.BaseException]; code that can
      raise returns [Py.Res].
    - the outside world (the server under test, the random generator) is
      an abstract state threaded through the calls that touch it. *)

From Stdlib Require Import ZArith.
From stdpp Require Import base list strings gmap pretty sorting.

(** ** Python: exceptions and results *)

Module Py.

(** The part of the exception hierarchy the script is sensitive to:
    [except Exception] catches every instance of [Exception] (with its
    class name and detail) and lets the other [BaseException]s through. *)
Inductive BaseException : Type :=
| Exception (cls : string) (detail : string)
| SystemExit (code : Z)
| KeyboardInterrupt
| GeneratorExit.

Definition isinstance_Exception (e : BaseException) : bool :=
  match e with
  | Exception _ _ => true
  | _ => false
  end.

Inductive Res (A : Type) : Type :=
| Ok (a : A)
| Raise (e : BaseException).
Arguments Ok {A} a.
Arguments Raise {A} e.

Definition ValueError (detail : string) : BaseException :=
  Exception "ValueError" detail.
Definition KeyError (detail : string) : BaseException :=
  Exception "KeyError" detail.
Definition IndexError (detail : string) : BaseException :=
  Exception "IndexError" detail.

(** How the interpreter terminates once [main()] is over: a normal
    return is status 0, [sys.exit(n)] is status [n], any other uncaught
    exception prints its traceback and gives a nonzero status. *)
Inductive Termination : Type :=
| ExitStatus (n : Z)
| UncaughtTraceback (e : BaseException).

Definition interpreter_exit (r : Res unit) : Termination :=
  match r with
  | Ok _ => ExitStatus 0%Z
  | Raise (SystemExit n) => ExitStatus n
  | Raise e => UncaughtTraceback e
  end.

Definition sys_exit {A} (n : Z) : Res A := Raise (SystemExit n).

(** Truth value of an optional [int]: [None] and [0] are false. *)
Definition truthy_int (n : option Z) : bool :=
  match n with
  | None => false
  | Some k => negb (k =? 0)%Z
  end.

(** Truth value of an optional [set]: [None] and the empty set are false. *)
Definition truthy_set (s : option (gset string)) : bool :=
  match s with
  | None => false
  | Some s => negb (bool_decide (s = ∅))
  end.

(** [x in s] for a set that is known not to be [None]. *)
Definition contains (s : gset string) (x : string) : bool :=
  bool_decide (x ∈ s).

End Py.

Export Py (Ok, Raise).

(** ** Python [dict], in insertion order *)

Module Dict.

Definition t (V : Type) : Type := list (string * V).

Definition empty {V} : t V := [].

(** [d[k] = v]: an existing key keeps its place, a new one goes last. *)
Fixpoint setitem {V} (k : string) (v : V) (d : t V) : t V :=
  match d with
  | [] => [(k, v)]
  | (k', v') :: d' =>
      if String.eqb k' k then (k, v) :: d' else (k', v') :: setitem k v d'
  end.

(** [d[k]], which raises [KeyError] on a missing key. *)
Fixpoint getitem {V} (k : string) (d : t V) : Py.Res V :=
  match d with
  | [] => Raise (Py.KeyError k)
  | (k', v') :: d' => if String.eqb k' k then Ok v' else getitem k d'
  end.

Definition items {V} (d : t V) : list (string * V) := d.

Definition keys {V} (d : t V) : list string := d.*1.

Definition len {V} (d : t V) : nat := length d.

End Dict.

(** ** tlslite constants used by the script *)

Module CipherSuite.
Definition TLS_RSA_WITH_AES_128_CBC_SHA : Z := 0x002F%Z.
Definition TLS_EMPTY_RENEGOTIATION_INFO_SCSV : Z := 0x00FF%Z.
End CipherSuite.

Module AlertLevel.
Definition warning : Z := 1%Z.
Definition fatal : Z := 2%Z.
End AlertLevel.

Module AlertDescription.
Definition close_notify : Z := 0%Z.
Definition no_renegotiation : Z := 100%Z.
End AlertDescription.

Module ExtensionType.
Definition renegotiation_info : Z := 0xff01%Z.
End ExtensionType.

(** ** Conversation graphs *)

(** The [extensions] argument of the hello nodes: a dict from extension
    type to an explicit payload, or to [None] for the automatic one. *)
Definition Extensions : Type := list (Z * option (list Z)).

(** What a node was constructed as, with the arguments the script passes
    (keyword arguments left out by the script are [None]). *)
Inductive NodeData : Type :=
| Connect (host : string) (port : Z)
| ClientHelloGenerator (ciphers : list Z) (session_id : option string)
    (extensions : option Extensions)
| ExpectServerHello (extensions : option Extensions)
| ExpectCertificate
| ExpectServerHelloDone
| ClientKeyExchangeGenerator
| ChangeCipherSpecGenerator
| FinishedGenerator
| ExpectChangeCipherSpec
| ExpectFinished
| ApplicationDataGenerator (payload : string)
| ExpectApplicationData
| AlertGenerator (level : Z) (description : Z)
| ExpectAlert (level : option Z) (description : option Z)
| ExpectClose
| ResetHandshakeHashes.

#[global] Instance NodeData_eq_dec : EqDecision NodeData.
Proof. solve_decision. Defined.

Inductive NodeKind : Type := Command | Generator | Expectation.

#[global] Instance NodeKind_eq_dec : EqDecision NodeKind.
Proof. solve_decision. Defined.

(** Modelled from the spec: the node classes of tlsfuzzer.messages and
    tlsfuzzer.expect, which the script only imports.  A generator
    sends one message, an expectation receives and validates one, and the
    control nodes ([Connect], which opens the connection, and
    [ResetHandshakeHashes], a no-I/O node that only mutates the connection
    state) do neither. *)
Definition node_kind (d : NodeData) : NodeKind :=
  match d with
  | Connect _ _ | ResetHandshakeHashes => Command
  | ClientHelloGenerator _ _ _ | ClientKeyExchangeGenerator
  | ChangeCipherSpecGenerator | FinishedGenerator
  | ApplicationDataGenerator _ | AlertGenerator _ _ => Generator
  | ExpectServerHello _ | ExpectCertificate | ExpectServerHelloDone
  | ExpectChangeCipherSpec | ExpectFinished | ExpectApplicationData
  | ExpectAlert _ _ | ExpectClose => Expectation
  end.

(** Modelled from the spec: whether a node exchanges a protocol message
    with the peer.  [ResetHandshakeHashes] only clears the transcript
    accumulators of the connection state. *)
Definition performs_io (d : NodeData) : bool :=
  match d with
  | ResetHandshakeHashes => false
  | _ => true
  end.

(** Address of a node object. *)
Definition Ref : Type := nat.

(** Modelled from the spec: tlsfuzzer's tree node class, which the script
    only uses.  A node holds an ordered collection of child nodes and an
    optional next sibling, both empty at construction. *)
Record TreeNode : Type := mkTreeNode {
  data : NodeData;
  children : list Ref;
  next_sibling : option Ref
}.

#[global] Instance TreeNode_eq_dec : EqDecision TreeNode.
Proof. solve_decision. Defined.

(** The store of node objects; a new object gets the next free address. *)
Definition Heap : Type := list TreeNode.

(** Construction of objects is a state transformer over the store. *)
Definition Build (A : Type) : Type := Heap → A * Heap.

Definition build_ret {A} (a : A) : Build A := λ h, (a, h).

Definition build_bind {A B} (m : Build A) (k : A → Build B) : Build B :=
  λ h, let '(a, h') := m h in k a h'.

Declare Scope build_scope.
Delimit Scope build_scope with build.
Notation "x <- m ;; k" := (build_bind m (λ x, k))
  (at level 100, m at next level, right associativity) : build_scope.
Notation "m ;;; k" := (build_bind m (λ _, k))
  (at level 100, right associativity) : build_scope.

(** A constructor call such as [ExpectCertificate()]. *)
Definition new (d : NodeData) : Build Ref :=
  λ h, (List.length h, h ++ [mkTreeNode d [] None]).

(** Modelled from the spec: [add_child(node)] appends [node] as a new
    child and returns it, enabling fluent chain-building. *)
Definition add_child (parent : Ref) (child : Build Ref) : Build Ref :=
  λ h,
    let '(c, h1) := child h in
    match h1 !! parent with
    | Some p =>
        (c, <[parent := mkTreeNode (data p) (children p ++ [c]) (next_sibling p)]> h1)
    | None => (c, h1)
    end.

(** The attribute assignment [node.next_sibling = sibling]. *)
Definition set_next_sibling (node : Ref) (sibling : Build Ref) : Build unit :=
  λ h,
    let '(s, h1) := sibling h in
    match h1 !! node with
    | Some p => (tt, <[node := mkTreeNode (data p) (children p) (Some s)]> h1)
    | None => (tt, h1)
    end.

Definition CR : string := String (Ascii.ascii_of_nat 13) EmptyString.
Definition LF : string := String (Ascii.ascii_of_nat 10) EmptyString.
Definition CRLF : string := CR +:+ LF.
Definition DQUOTE : string := String (Ascii.ascii_of_nat 34) EmptyString.

Definition GET_line : string :=
  "GET /?Renegotiation_Test=tlsfuzzer HTTP/1.0" +:+ CRLF.

Section Conversations.

Variables (host : string) (port : Z) (no_renego_close : bool).

Local Open Scope build_scope.

(** Lines 79-99. *)
Definition build_sanity : Build Ref :=
  conversation <- new (Connect host port);;
  let node := conversation in
  let ciphers := [CipherSuite.TLS_RSA_WITH_AES_128_CBC_SHA;
                  CipherSuite.TLS_EMPTY_RENEGOTIATION_INFO_SCSV] in
  node <- add_child node (new (ClientHelloGenerator ciphers None None));;
  node <- add_child node (new (ExpectServerHello None));;
  node <- add_child node (new ExpectCertificate);;
  node <- add_child node (new ExpectServerHelloDone);;
  node <- add_child node (new ClientKeyExchangeGenerator);;
  node <- add_child node (new ChangeCipherSpecGenerator);;
  node <- add_child node (new FinishedGenerator);;
  node <- add_child node (new ExpectChangeCipherSpec);;
  node <- add_child node (new ExpectFinished);;
  node <- add_child node (new (ApplicationDataGenerator (GET_line +:+ CRLF)));;
  node <- add_child node (new ExpectApplicationData);;
  node <- add_child node (new (AlertGenerator AlertLevel.warning
                                 AlertDescription.close_notify));;
  node <- add_child node (new (ExpectAlert None None));;
  set_next_sibling node (new ExpectClose);;;
  build_ret conversation.

(** Lines 102-140. *)
Definition build_secure_GET_after_2nd_CH : Build Ref :=
  conversation <- new (Connect host port);;
  let node := conversation in
  let ciphers := [CipherSuite.TLS_RSA_WITH_AES_128_CBC_SHA] in
  let ext : Extensions := [(ExtensionType.renegotiation_info, None)] in
  node <- add_child node (new (ClientHelloGenerator ciphers None (Some ext)));;
  let ext : Extensions := [(ExtensionType.renegotiation_info, None)] in
  node <- add_child node (new (ExpectServerHello (Some ext)));;
  node <- add_child node (new ExpectCertificate);;
  node <- add_child node (new ExpectServerHelloDone);;
  node <- add_child node (new ClientKeyExchangeGenerator);;
  node <- add_child node (new ChangeCipherSpecGenerator);;
  node <- add_child node (new FinishedGenerator);;
  node <- add_child node (new ExpectChangeCipherSpec);;
  node <- add_child node (new ExpectFinished);;
  (* 2nd handshake *)
  node <- add_child node (new ResetHandshakeHashes);;
  let ext : Extensions := [(ExtensionType.renegotiation_info, None)] in
  node <- add_child node (new (ClientHelloGenerator ciphers (Some EmptyString) (Some ext)));;
  node <- add_child node (new (ExpectAlert (Some AlertLevel.warning)
                                 (Some AlertDescription.no_renegotiation)));;
  (if no_renego_close then
     node <- add_child node (new (ExpectAlert (Some AlertLevel.warning)
                                    (Some AlertDescription.close_notify)));;
     node <- add_child node (new ExpectClose);;
     build_ret tt
   else
     (* send GET request *)
     node <- add_child node (new (ApplicationDataGenerator GET_line));;
     node <- add_child node (new (ApplicationDataGenerator CRLF));;
     node <- add_child node (new ExpectApplicationData);;
     node <- add_child node (new (AlertGenerator AlertLevel.warning
                                    AlertDescription.close_notify));;
     node <- add_child node (new (ExpectAlert None None));;
     set_next_sibling node (new ExpectClose));;;
  build_ret conversation.

(** Lines 143-182. *)
Definition build_secure_incomplete_GET : Build Ref :=
  conversation <- new (Connect host port);;
  let node := conversation in
  let ciphers := [CipherSuite.TLS_RSA_WITH_AES_128_CBC_SHA] in
  let ext : Extensions := [(ExtensionType.renegotiation_info, None)] in
  node <- add_child node (new (ClientHelloGenerator ciphers None (Some ext)));;
  let ext : Extensions := [(ExtensionType.renegotiation_info, None)] in
  node <- add_child node (new (ExpectServerHello (Some ext)));;
  node <- add_child node (new ExpectCertificate);;
  node <- add_child node (new ExpectServerHelloDone);;
  node <- add_child node (new ClientKeyExchangeGenerator);;
  node <- add_child node (new ChangeCipherSpecGenerator);;
  node <- add_child node (new FinishedGenerator);;
  node <- add_child node (new ExpectChangeCipherSpec);;
  node <- add_child node (new ExpectFinished);;
  (* send incomplete GET request *)
  node <- add_child node (new (ApplicationDataGenerator GET_line));;
  (* 2nd handshake *)
  node <- add_child node (new ResetHandshakeHashes);;
  let ext : Extensions := [(ExtensionType.renegotiation_info, None)] in
  node <- add_child node (new (ClientHelloGenerator ciphers (Some EmptyString) (Some ext)));;
  node <- add_child node (new (ExpectAlert (Some AlertLevel.warning)
                                 (Some AlertDescription.no_renegotiation)));;
  (if no_renego_close then
     node <- add_child node (new (ExpectAlert (Some AlertLevel.warning)
                                    (Some AlertDescription.close_notify)));;
     node <- add_child node (new ExpectClose);;
     build_ret tt
   else
     (* finish the GET request *)
     node <- add_child node (new (ApplicationDataGenerator CRLF));;
     node <- add_child node (new ExpectApplicationData);;
     node <- add_child node (new (AlertGenerator AlertLevel.warning
                                    AlertDescription.close_notify));;
     node <- add_child node (new (ExpectAlert None None));;
     set_next_sibling node (new ExpectClose));;;
  build_ret conversation.

(** Lines 185-219. *)
Definition build_insecure_GET_after_2nd_CH : Build Ref :=
  conversation <- new (Connect host port);;
  let node := conversation in
  let ciphers := [CipherSuite.TLS_RSA_WITH_AES_128_CBC_SHA] in
  node <- add_child node (new (ClientHelloGenerator ciphers None None));;
  node <- add_child node (new (ExpectServerHello None));;
  node <- add_child node (new ExpectCertificate);;
  node <- add_child node (new ExpectServerHelloDone);;
  node <- add_child node (new ClientKeyExchangeGenerator);;
  node <- add_child node (new ChangeCipherSpecGenerator);;
  node <- add_child node (new FinishedGenerator);;
  node <- add_child node (new ExpectChangeCipherSpec);;
  node <- add_child node (new ExpectFinished);;
  (* 2nd handshake *)
  node <- add_child node (new ResetHandshakeHashes);;
  node <- add_child node (new (ClientHelloGenerator ciphers (Some EmptyString) None));;
  node <- add_child node (new (ExpectAlert (Some AlertLevel.warning)
                                 (Some AlertDescription.no_renegotiation)));;
  (if no_renego_close then
     node <- add_child node (new (ExpectAlert (Some AlertLevel.warning)
                                    (Some AlertDescription.close_notify)));;
     node <- add_child node (new ExpectClose);;
     build_ret tt
   else
     (* send GET request *)
     node <- add_child node (new (ApplicationDataGenerator GET_line));;
     node <- add_child node (new (ApplicationDataGenerator CRLF));;
     node <- add_child node (new ExpectApplicationData);;
     node <- add_child node (new (AlertGenerator AlertLevel.warning
                                    AlertDescription.close_notify));;
     node <- add_child node (new (ExpectAlert None None));;
     set_next_sibling node (new ExpectClose));;;
  build_ret conversation.

(** Lines 222-257. *)
Definition build_insecure_incomplete_GET : Build Ref :=
  conversation <- new (Connect host port);;
  let node := conversation in
  let ciphers := [CipherSuite.TLS_RSA_WITH_AES_128_CBC_SHA] in
  node <- add_child node (new (ClientHelloGenerator ciphers None None));;
  node <- add_child node (new (ExpectServerHello None));;
  node <- add_child node (new ExpectCertificate);;
  node <- add_child node (new ExpectServerHelloDone);;
  node <- add_child node (new ClientKeyExchangeGenerator);;
  node <- add_child node (new ChangeCipherSpecGenerator);;
  node <- add_child node (new FinishedGenerator);;
  node <- add_child node (new ExpectChangeCipherSpec);;
  node <- add_child node (new ExpectFinished);;
  (* send incomplete GET request *)
  node <- add_child node (new (ApplicationDataGenerator GET_line));;
  (* 2nd handshake *)
  node <- add_child node (new ResetHandshakeHashes);;
  node <- add_child node (new (ClientHelloGenerator ciphers (Some EmptyString) None));;
  node <- add_child node (new (ExpectAlert (Some AlertLevel.warning)
                                 (Some AlertDescription.no_renegotiation)));;
  (if no_renego_close then
     node <- add_child node (new (ExpectAlert (Some AlertLevel.warning)
                                    (Some AlertDescription.close_notify)));;
     node <- add_child node (new ExpectClose);;
     build_ret tt
   else
     (* finish the GET request *)
     node <- add_child node (new (ApplicationDataGenerator CRLF));;
     node <- add_child node (new ExpectApplicationData);;
     node <- add_child node (new (AlertGenerator AlertLevel.warning
                                    AlertDescription.close_notify));;
     node <- add_child node (new (ExpectAlert None None));;
     set_next_sibling node (new ExpectClose));;;
  build_ret conversation.

(** Lines 77-257: the dict of the five conversations. *)
Definition build_conversations : Build (Dict.t Ref) :=
  let conversations := Dict.empty in
  conversation <- build_sanity;;
  let conversations := Dict.setitem "sanity" conversation conversations in
  conversation <- build_secure_GET_after_2nd_CH;;
  let conversations :=
    Dict.setitem "try secure renegotiation with GET after 2nd CH"
      conversation conversations in
  conversation <- build_secure_incomplete_GET;;
  let conversations :=
    Dict.setitem "try secure renegotiation with incomplete GET"
      conversation conversations in
  conversation <- build_insecure_GET_after_2nd_CH;;
  let conversations :=
    Dict.setitem "try insecure (legacy) renegotiation with GET after 2nd CH"
      conversation conversations in
  conversation <- build_insecure_incomplete_GET;;
  let conversations :=
    Dict.setitem "try insecure (legacy) renegotiation with incomplete GET"
      conversation conversations in
  build_ret conversations.

End Conversations.

(** The store and the dict as [main] has them at line 258, starting from
    an empty store. *)
Definition conversations_of (host : string) (port : Z) (no_renego_close : bool)
  : Dict.t Ref * Heap :=
  build_conversations host port no_renego_close [].

(** ** Reading a graph *)

(** The single child of a node, when it has exactly one. *)
Definition only_child (h : Heap) (r : Ref) : option Ref :=
  match h !! r with
  | Some (mkTreeNode _ [c] _) => Some c
  | _ => None
  end.

(** The nodes met from [r] by going from each node to its only child. *)
Fixpoint descend (fuel : nat) (h : Heap) (r : Ref) : list Ref :=
  match fuel with
  | O => []
  | S fuel' =>
      r :: match only_child h r with
           | Some c => descend fuel' h c
           | None => []
           end
  end.

Definition path (h : Heap) (root : Ref) : list Ref :=
  descend (List.length h) h root.

Definition data_at (h : Heap) (r : Ref) : option NodeData :=
  data <$> h !! r.

Definition is_ClientHello (d : NodeData) : bool :=
  match d with
  | ClientHelloGenerator _ _ _ => true
  | _ => false
  end.

(** The ClientHello generators along the path from [root], in order. *)
Definition client_hellos (h : Heap) (root : Ref) : list Ref :=
  filter (λ r, from_option is_ClientHello false (data_at h r) = true)
         (path h root).

(** The ClientHello generator that starts the second handshake. *)
Definition second_client_hello (h : Heap) (root : Ref) : option Ref :=
  client_hellos h root !! 1.

(** The nodes that have [r] among their children. *)
Definition parents (h : Heap) (r : Ref) : list Ref :=
  (λ p, p.1) <$> filter (λ p, r ∈ children p.2) (imap (λ i n, (i, n)) h).

(** The data of the nodes from [r] on that have exactly one child and no
    next sibling, in order, with the first node met that is not of that
    kind. *)
Fixpoint trunk_from (fuel : nat) (h : Heap) (r : Ref) : list NodeData * Ref :=
  match fuel with
  | O => ([], r)
  | S fuel' =>
      match h !! r with
      | Some (mkTreeNode d [c] None) =>
          let '(ds, r') := trunk_from fuel' h c in (d :: ds, r')
      | _ => ([], r)
      end
  end.

Definition trunk (h : Heap) (root : Ref) : list NodeData * Ref :=
  trunk_from (List.length h) h root.

(** [linear_chain h r shape]: the graph from [r] is one chain, without
    alternatives, of as many nodes as [shape] has entries, the node at
    each place satisfying the entry for it; the last node is a leaf. *)
Fixpoint linear_chain (h : Heap) (r : Ref) (shape : list (NodeData → bool))
  : bool :=
  match shape with
  | [] => false
  | p :: shape' =>
      match h !! r, shape' with
      | Some (mkTreeNode d [] None), [] => p d
      | Some (mkTreeNode d [c] None), _ :: _ => p d && linear_chain h c shape'
      | _, _ => false
      end
  end.

(** The exchange of the end-to-end scenario, as a shape for
    [linear_chain], after the connection is opened: a ClientHello with the
    cipher list [[TLS_RSA_WITH_AES_128_CBC_SHA]], and at the end an
    expectation of a [close_notify] alert followed by one of the close. *)
Definition end_to_end_shape : list (NodeData → bool) :=
  [ (λ d, match d with Connect _ _ => true | _ => false end);
    (λ d, match d with
          | ClientHelloGenerator ciphers _ _ =>
              bool_decide (ciphers = [CipherSuite.TLS_RSA_WITH_AES_128_CBC_SHA])
          | _ => false
          end);
    (λ d, match d with ExpectServerHello _ => true | _ => false end);
    (λ d, bool_decide (d = ExpectCertificate));
    (λ d, bool_decide (d = ExpectServerHelloDone));
    (λ d, bool_decide (d = ClientKeyExchangeGenerator));
    (λ d, bool_decide (d = ChangeCipherSpecGenerator));
    (λ d, bool_decide (d = FinishedGenerator));
    (λ d, bool_decide (d = ExpectChangeCipherSpec));
    (λ d, bool_decide (d = ExpectFinished));
    (λ d, match d with ApplicationDataGenerator _ => true | _ => false end);
    (λ d, bool_decide (d = ExpectApplicationData));
    (λ d, match d with
          | AlertGenerator _ description =>
              bool_decide (description = AlertDescription.close_notify)
          | _ => false
          end);
    (λ d, match d with
          | ExpectAlert _ description =>
              bool_decide (description = Some AlertDescription.close_notify)
          | _ => false
          end);
    (λ d, bool_decide (d = ExpectClose)) ].

(** The first thirteen nodes of the sanity conversation, lines 79-96. *)
Definition sanity_trunk (host : string) (port : Z) : list NodeData :=
  [ Connect host port;
    ClientHelloGenerator [CipherSuite.TLS_RSA_WITH_AES_128_CBC_SHA;
                          CipherSuite.TLS_EMPTY_RENEGOTIATION_INFO_SCSV]
      None None;
    ExpectServerHello None;
    ExpectCertificate;
    ExpectServerHelloDone;
    ClientKeyExchangeGenerator;
    ChangeCipherSpecGenerator;
    FinishedGenerator;
    ExpectChangeCipherSpec;
    ExpectFinished;
    ApplicationDataGenerator (GET_line +:+ CRLF);
    ExpectApplicationData;
    AlertGenerator AlertLevel.warning AlertDescription.close_notify ].

(** The names under which [main] files the renegotiation conversations. *)
Definition renegotiation_names : list string :=
  [ "try secure renegotiation with GET after 2nd CH";
    "try secure renegotiation with incomplete GET";
    "try insecure (legacy) renegotiation with GET after 2nd CH";
    "try insecure (legacy) renegotiation with incomplete GET" ].

(** In the graph from [root], the second ClientHello generator has one
    child, an alert expectation for exactly ([warning],
    [no_renegotiation]) with no alternative beside it. *)
Definition no_renegotiation_after_second_hello (h : Heap) (root : Ref) : Prop :=
  ∃ hello alert grandchildren,
    second_client_hello h root = Some hello
    ∧ (children <$> h !! hello) = Some [alert]
    ∧ h !! alert =
        Some (mkTreeNode (ExpectAlert (Some AlertLevel.warning)
                            (Some AlertDescription.no_renegotiation))
                grandchildren None).

(** In the graph from [root], the second ClientHello generator is the
    only child of a [ResetHandshakeHashes] node on the path, and has no
    other parent. *)
Definition reset_right_before_second_hello (h : Heap) (root : Ref) : Prop :=
  ∃ reset hello,
    second_client_hello h root = Some hello
    ∧ reset ∈ path h root
    ∧ h !! reset = Some (mkTreeNode ResetHandshakeHashes [hello] None)
    ∧ parents h hello = [reset].

(** ** The script's settings *)

(** The local variables of [main] that hold the command line. *)
Record Settings : Type := mkSettings {
  host : string;
  port : Z;
  num_limit : option Z;
  run_exclude : gset string;
  no_renego_close : bool;
  run_only : option (gset string)
}.

(** Lines 47-51. *)
Definition defaults : Settings :=
  {| host := "localhost"; port := 4433%Z; num_limit := None;
     run_exclude := ∅; no_renego_close := false; run_only := None |}.

(** [version = 1], line 28. *)
Definition version : nat := 1.

(** What [main] does that is visible from outside, in the order it
    happens: a [print], or one pass of the loop body that got to
    [runner.run()] for the entry [c_name], with what the call did. *)
Inductive Event : Type :=
| Print (text : string)
| Executed (c_name : string) (c_test : Ref) (outcome : Py.Res unit).

Definition executed_of (ev : Event) : option (string * Py.Res unit) :=
  match ev with
  | Executed c_name _ outcome => Some (c_name, outcome)
  | Print _ => None
  end.

(** The conversations that were run, with their outcomes, in order. *)
Definition executed (trace : list Event) : list (string * Py.Res unit) :=
  omap executed_of trace.

(** The names of the conversations that were run, in order. *)
Definition attempted (trace : list Event) : list string :=
  (executed trace).*1.

Definition returned (outcome : Py.Res unit) : bool :=
  match outcome with
  | Ok _ => true
  | Raise _ => false
  end.

(** An outcome that lets the loop go on: a return, or an [Exception]. *)
Definition handled (outcome : Py.Res unit) : bool :=
  match outcome with
  | Ok _ => true
  | Raise e => Py.isinstance_Exception e
  end.

Definition passed (r : string * Py.Res unit) : bool := returned r.2.

Definition passes (l : list (string * Py.Res unit))
  : list (string * Py.Res unit) :=
  filter (λ r, passed r = true) l.

Definition failures (l : list (string * Py.Res unit))
  : list (string * Py.Res unit) :=
  filter (λ r, passed r = false) l.

(** Sanity first, sanity last, and only other names in between. *)
Definition sanity_first_and_last (names : list string) : Prop :=
  ∃ others, names = "sanity" :: others ++ ["sanity"] ∧ "sanity" ∉ others.

(** The loop's three variables, lines 261-263. *)
Record Tally : Type := mkTally {
  good : nat;
  bad : nat;
  failed : list string
}.

(** The state a statement of [main] works on: the outside, in a state of
    type [W], and what has happened so far. *)
Record Sys (W : Type) : Type := mkSys {
  world : W;
  trace : list Event
}.
Arguments mkSys {W} world trace.
Arguments world {W} s.
Arguments trace {W} s.

(** What the script takes from outside itself. *)
Class Environment : Type := {
  (** The state of everything outside the script: the server under test
      and the random number generator. *)
  World : Type;
  (** [random]'s source of integers below a bound. *)
  randbelow : nat → World → nat * World;
  (** [Runner(c_test).run()] on the graph rooted at [c_test]: it returns
      or raises. *)
  runner_run : Heap → Ref → World → Py.Res unit * World;
  (** [traceback.format_exc()] for the exception being handled. *)
  format_exc : Py.BaseException → string;
  (** [sorted(..., key=natural_sort_keys)]. *)
  sorted_natural : list string → list string;
  (** [repr] of a [str]. *)
  repr : string → string;
  (** [int] of a [str]. *)
  int : string → Py.Res Z
}.

Section Script.

Context `{Environment}.


(** Statements of [main]: they read and write the outside state and
    either complete with a value or raise. *)
Definition M (A : Type) : Type := Sys World → Py.Res A * Sys World.

Definition ret {A} (a : A) : M A := λ s, (Ok a, s).

Definition bind {A B} (m : M A) (k : A → M B) : M B :=
  λ s, match m s with
       | (Ok a, s') => k a s'
       | (Raise e, s') => (Raise e, s')
       end.

Definition raise {A} (e : Py.BaseException) : M A := λ s, (Raise e, s).

Definition lift {A} (r : Py.Res A) : M A := λ s, (r, s).

Definition print (text : string) : M unit :=
  λ s, (Ok tt, mkSys (world s) (trace s ++ [Print text])).

Declare Scope script_scope.
Delimit Scope script_scope with script.
Notation "x <- m ;; k" := (bind m (λ x, k))
  (at level 100, m at next level, right associativity) : script_scope.
Notation "m ;;; k" := (bind m (λ _, k))
  (at level 100, right associativity) : script_scope.
Local Open Scope script_scope.

(** *** [random.sample] *)

(** The selection loop of [random.sample] for a population of at most
    21 items (the script's has four): each round draws a position among
    the items not yet chosen, takes the item there, and moves the last
    such item into the vacancy.  [result[i] = pool[j]] fills the next free
    slot of [result], which is modelled as appending. *)
Fixpoint sample_loop {A} (n rounds i : nat) (pool result : list A)
  : M (list A) :=
  match rounds with
  | O => ret result
  | S rounds' =>
      λ s,
        let '(j, w) := randbelow (n - i) (world s) in
        let s' := mkSys w (trace s) in
        match pool !! j, pool !! (n - i - 1) with
        | Some x, Some y =>
            sample_loop n rounds' (S i) (<[j := y]> pool) (result ++ [x]) s'
        | _, _ => (Raise (Py.IndexError "list index out of range"), s')
        end
  end.

Definition sample {A} (population : list A) (k : Z) : M (list A) :=
  let n := length population in
  if negb ((0 <=? k)%Z && (k <=? Z.of_nat n)%Z) then
    raise (Py.ValueError "Sample larger than population or is negative")
  else
    sample_loop n (Z.to_nat k) 0 population [].

(** *** Options, lines 53-75 *)

(** [help_msg], lines 31-43. *)
Definition help_msg : M unit :=
  print "Usage: <script-name> [-h hostname] [-p port] [[probe-name] ...]";;;
  print " -h hostname    name of the host to run the test against";;;
  print "                localhost by default";;;
  print " -p port        port number to use for connection, 4433 by default";;;
  print " probe-name     if present, will run only the probes with given";;;
  print ("                names and not all of them, e.g "
           +:+ DQUOTE +:+ "sanity" +:+ DQUOTE);;;
  print " -e probe-name  exclude the probe from the list of the ones run";;;
  print "                may be specified multiple times";;;
  print " -n num         only run `num` random tests instead of a full set";;;
  print ("                (excluding " +:+ DQUOTE +:+ "sanity" +:+ DQUOTE
           +:+ " tests)");;;
  print " --no-renego-close expect a connection close, after no_renego alert";;;
  print " --help         this message".

(** The loop over the [(opt, arg)] pairs that [getopt] returns. *)
Fixpoint handle_opts (opts : list (string * string)) (st : Settings)
  : M Settings :=
  match opts with
  | [] => ret st
  | (opt, arg) :: opts' =>
      if String.eqb opt "-h" then
        handle_opts opts'
          (mkSettings arg (port st) (num_limit st) (run_exclude st)
             (no_renego_close st) (run_only st))
      else if String.eqb opt "-p" then
        p <- lift (int arg);;
        handle_opts opts'
          (mkSettings (host st) p (num_limit st) (run_exclude st)
             (no_renego_close st) (run_only st))
      else if String.eqb opt "-e" then
        handle_opts opts'
          (mkSettings (host st) (port st) (num_limit st)
             (run_exclude st ∪ {[arg]}) (no_renego_close st) (run_only st))
      else if String.eqb opt "-n" then
        n <- lift (int arg);;
        handle_opts opts'
          (mkSettings (host st) (port st) (Some n) (run_exclude st)
             (no_renego_close st) (run_only st))
      else if String.eqb opt "--no-renego-close" then
        handle_opts opts'
          (mkSettings (host st) (port st) (num_limit st) (run_exclude st)
             true (run_only st))
      else if String.eqb opt "--help" then
        help_msg;;; lift (Py.sys_exit 0)
      else
        raise (Py.ValueError ("Unknown option: " +:+ opt))
  end.

(** Lines 53-75, given what [getopt] made of the command line. *)
Definition read_command_line (opts : list (string * string))
    (args : list string) : M Settings :=
  st <- handle_opts opts defaults;;
  let run_only :=
    match args with
    | [] => None
    | _ => Some (list_to_set args)
    end in
  ret (mkSettings (host st) (port st) (num_limit st) (run_exclude st)
         (no_renego_close st) run_only).

(** *** Choosing and ordering the tests, lines 264-272 *)

(** Lines 264-265: a limit that is [None] or [0] becomes the size of
    the dict. *)
Definition limit_or_all (num_limit : option Z) (conversations : Dict.t Ref)
  : Z :=
  match num_limit with
  | Some k =>
      if Py.truthy_int (Some k) then k else Z.of_nat (Dict.len conversations)
  | None => Z.of_nat (Dict.len conversations)
  end.

(** Line 270. *)
Definition regular_tests (conversations : Dict.t Ref) : list (string * Ref) :=
  filter (λ kv, kv.1 ≠ "sanity") (Dict.items conversations).

(** Line 271. *)
Definition sampled_tests (num_limit : option Z) (conversations : Dict.t Ref)
  : M (list (string * Ref)) :=
  let num_limit := limit_or_all num_limit conversations in
  let regular_tests := regular_tests conversations in
  sample regular_tests (Z.min num_limit (Z.of_nat (length regular_tests))).

(** Lines 269-272. *)
Definition ordered_tests (num_limit : option Z) (conversations : Dict.t Ref)
  : M (list (string * Ref)) :=
  sanity <- lift (Dict.getitem "sanity" conversations);;
  let sanity_tests := [("sanity", sanity)] in
  sampled_tests <- sampled_tests num_limit conversations;;
  ret (sanity_tests ++ sampled_tests ++ sanity_tests).

(** *** The run loop, lines 274-294 *)

(** Line 275: [run_only and c_name not in run_only or c_name in
    run_exclude]. *)
Definition skipped (st : Settings) (c_name : string) : bool :=
  match run_only st with
  | Some only =>
      if Py.truthy_set (Some only) then
        negb (Py.contains only c_name) || Py.contains (run_exclude st) c_name
      else Py.contains (run_exclude st) c_name
  | None => Py.contains (run_exclude st) c_name
  end.

(** Lines 279-287: the result of [runner.run()] decides [res]; an
    exception that is not an [Exception] is not handled here. *)
Definition try_run (h : Heap) (c_name : string) (c_test : Ref) : M bool :=
  λ s,
    let '(outcome, w) := runner_run h c_test (world s) in
    let s' := mkSys w (trace s ++ [Executed c_name c_test outcome]) in
    match outcome with
    | Ok _ => (Ok true, s')
    | Raise e =>
        if Py.isinstance_Exception e then
          (print "Error while processing";;;
           print (format_exc e);;;
           ret false) s'
        else (Raise e, s')
    end.

(** One pass of the loop body on the entry [(c_name, c_test)]. *)
Definition loop_body (h : Heap) (st : Settings) (entry : string * Ref)
    (t : Tally) : M Tally :=
  let '(c_name, c_test) := entry in
  if skipped st c_name then ret t
  else
    print (c_name +:+ " ...");;;
    res <- try_run h c_name c_test;;
    if res then
      print ("OK" +:+ LF);;;
      ret (mkTally (S (good t)) (bad t) (failed t))
    else
      ret (mkTally (good t) (S (bad t)) (failed t ++ [c_name])).

Fixpoint run_loop (h : Heap) (st : Settings) (tests : list (string * Ref))
    (t : Tally) : M Tally :=
  match tests with
  | [] => ret t
  | entry :: tests' =>
      t' <- loop_body h st entry t;;
      run_loop h st tests' t'
  end.

(** The entries of [tests] that line 275 lets through. *)
Definition let_through (st : Settings) (tests : list (string * Ref))
  : list (string * Ref) :=
  filter (λ entry, skipped st entry.1 = false) tests.

(** What one pass of the loop body leaves in the trace when it runs the
    entry [(c_name, c_test)] with the given outcome. *)
Definition events_for (c_name : string) (c_test : Ref)
    (outcome : Py.Res unit) : list Event :=
  [Print (c_name +:+ " ..."); Executed c_name c_test outcome]
  ++ match outcome with
     | Ok _ => [Print ("OK" +:+ LF)]
     | Raise e =>
         if Py.isinstance_Exception e then
           [Print "Error while processing"; Print (format_exc e)]
         else []
     end.

(** The tally after one more conversation with the given outcome. *)
Definition count (c_name : string) (outcome : Py.Res unit) (t : Tally)
  : Tally :=
  if returned outcome then mkTally (S (good t)) (bad t) (failed t)
  else mkTally (good t) (S (bad t)) (failed t ++ [c_name]).

(** The trace of a loop that ran the entries of [done], each with the
    outcome beside it. *)
Definition loop_events (done : list ((string * Ref) * Py.Res unit))
  : list Event :=
  done ≫= (λ x, events_for x.1.1 x.1.2 x.2).

(** The names and outcomes of [done]. *)
Definition results (done : list ((string * Ref) * Py.Res unit))
  : list (string * Py.Res unit) :=
  (λ x, (x.1.1, x.2)) <$> done.

(** The tally after the entries of [done]. *)
Definition tally_after (done : list ((string * Ref) * Py.Res unit))
    (t : Tally) : Tally :=
  foldl (λ t x, count x.1.1 x.2 t) t done.

(** *** The summary and the exit status, lines 296-306 *)

Definition join (sep : string) (l : list string) : string :=
  match l with
  | [] => EmptyString
  | x :: l' => foldl (λ acc y, acc +:+ sep +:+ y) x l'
  end.

Definition summary (t : Tally) : M unit :=
  print "Verify that the server disabled renegotiation (both legacy and secure)";;;
  print ("version: " +:+ pretty version +:+ LF);;;
  print "Test end";;;
  print ("successful: " +:+ pretty (good t));;;
  print ("failed: " +:+ pretty (bad t));;;
  let failed_sorted := sorted_natural (failed t) in
  print ("  " +:+ join (LF +:+ "  ") (repr <$> failed_sorted));;;
  if decide (0 < bad t) then lift (Py.sys_exit 1) else ret tt.

(** Lines 260-294: everything from the dict of conversations to the end
    of the loop. *)
Definition run_tests (h : Heap) (st : Settings) (conversations : Dict.t Ref)
  : M Tally :=
  let t := mkTally 0 0 [] in
  ordered_tests <- ordered_tests (num_limit st) conversations;;
  run_loop h st ordered_tests t.

(** Lines 77-294. *)
Definition build_and_run (st : Settings) : M Tally :=
  let '(conversations, h) :=
    conversations_of (host st) (port st) (no_renego_close st) in
  run_tests h st conversations.

(** [main], given what [getopt] made of [sys.argv[1:]]. *)
Definition main (opts : list (string * string)) (args : list string) : M unit :=
  st <- read_command_line opts args;;
  t <- build_and_run st;;
  summary t.

(** A run of the script from the state [w] of the outside. *)
Definition run_main (opts : list (string * string)) (args : list string)
    (w : World) : Py.Res unit * Sys World :=
  main opts args (mkSys w []).

End Script.

(** ** A concrete outside, to run the script on *)

Module Demo.

(** The outside state: a seed for the random generator and, for each
    coming call of [runner.run()], what it will do (it returns once the
    list is used up). *)
Record State : Type := mkState {
  seed : nat;
  coming : list (Py.Res unit)
}.

Definition demo_randbelow (n : nat) (w : State) : nat * State :=
  (seed w `mod` n, mkState (S (seed w)) (coming w)).

Definition demo_runner_run (h : Heap) (c_test : Ref) (w : State)
  : Py.Res unit * State :=
  match coming w with
  | [] => (Ok tt, w)
  | outcome :: rest => (outcome, mkState (seed w) rest)
  end.

(** A stand-in for [traceback.format_exc()]: the last line of the
    traceback, which names the exception.  The lines above it, which give
    the files and line numbers of the calls, are left out. *)
Definition demo_format_exc (e : Py.BaseException) : string :=
  match e with
  | Py.Exception cls detail => cls +:+ ": " +:+ detail
  | Py.SystemExit _ => "SystemExit"
  | Py.KeyboardInterrupt => "KeyboardInterrupt"
  | Py.GeneratorExit => "GeneratorExit"
  end.

(** A stand-in for [repr] on text without quotes, backslashes or control
    characters. *)
Definition demo_repr (s : string) : string := "'" +:+ s +:+ "'".

Definition digit (a : Ascii.ascii) : option Z :=
  let n := Ascii.nat_of_ascii a in
  if (48 <=? n) && (n <=? 57) then Some (Z.of_nat (n - 48)) else None.

Definition is_space (a : Ascii.ascii) : bool :=
  let n := Ascii.nat_of_ascii a in
  ((9 <=? n) && (n <=? 13)) || ((28 <=? n) && (n <=? 32)).

Fixpoint lstrip (s : string) : string :=
  match s with
  | EmptyString => EmptyString
  | String a s' => if is_space a then lstrip s' else s
  end.

Fixpoint rstrip (s : string) : string :=
  match s with
  | EmptyString => EmptyString
  | String a s' =>
      match rstrip s' with
      | EmptyString =>
          if is_space a then EmptyString else String a EmptyString
      | rest => String a rest
      end
  end.

(** The digits of a decimal literal, in which single underscores may
    stand between digits. *)
Fixpoint digits (s : string) (acc : Z) (after_digit : bool) : option Z :=
  match s with
  | EmptyString => if after_digit then Some acc else None
  | String a s' =>
      match digit a with
      | Some d => digits s' (10 * acc + d)%Z true
      | None =>
          if Ascii.eqb a (Ascii.ascii_of_nat 95) && after_digit then
            digits s' acc false
          else None
      end
  end.

(** A stand-in for [int] on ASCII text: surrounding whitespace, an
    optional sign, decimal digits; anything else is a [ValueError]. *)
Definition demo_int (s : string) : Py.Res Z :=
  let invalid :=
    Raise (Py.ValueError
             ("invalid literal for int() with base 10: " +:+ demo_repr s)) in
  match rstrip (lstrip s) with
  | EmptyString => invalid
  | String a s' =>
      if Ascii.eqb a (Ascii.ascii_of_nat 45) then
        from_option (λ n, Ok (- n)%Z) invalid (digits s' 0 false)
      else if Ascii.eqb a (Ascii.ascii_of_nat 43) then
        from_option Ok invalid (digits s' 0 false)
      else from_option Ok invalid (digits (String a s') 0 false)
  end.

Definition string_le (a b : string) : Prop := String.leb a b = true.

#[export] Instance string_le_dec : RelDecision string_le.
Proof. intros a b. unfold string_le. apply _. Defined.

#[export] Instance env : Environment := {|
  World := State;
  randbelow := demo_randbelow;
  runner_run := demo_runner_run;
  format_exc := demo_format_exc;
  sorted_natural := merge_sort string_le;
  repr := demo_repr;
  int := demo_int
|}.

(** The server answers every conversation as expected. *)
Definition healthy : State := mkState 0 [].

Definition AssertionError : Py.BaseException :=
  Py.Exception "AssertionError" "Unexpected message from peer".

Definition ConnectionRefusedError : Py.BaseException :=
  Py.Exception "ConnectionRefusedError" "[Errno 111] Connection refused".

(** The server answers the first conversation and fails the second with
    the given exception. *)
Definition dies_after_one (e : Py.BaseException) : State :=
  mkState 0 [Ok tt; Raise e].

(** The state of a run that starts in [w], with nothing printed yet. *)
Definition start (w : State) : Sys World := mkSys w [].

(** The dict and the store that [main] builds by default. *)
Definition conversations : Dict.t Ref :=
  (conversations_of "localhost" 4433 false).1.

Definition heap : Heap := (conversations_of "localhost" 4433 false).2.

(** The settings after [script.py sanity] and after [script.py -e sanity]. *)
Definition only_sanity : Settings :=
  mkSettings "localhost" 4433 None ∅ false (Some {["sanity"]}).

Definition exclude_sanity : Settings :=
  mkSettings "localhost" 4433 None {["sanity"]} false None.

End Demo.


(** ** Further readings of the command line and of the graphs *)

(** The arguments given with the option [name], in the order given. *)
Definition args_of (name : string) (opts : list (string * string))
  : list string :=
  omap (λ oa, if String.eqb oa.1 name then Some oa.2 else None) opts.

Definition is_Connect (d : NodeData) : bool :=
  match d with
  | Connect _ _ => true
  | _ => false
  end.

(** The addresses of the connection-opening nodes of a store. *)
Definition connect_nodes (h : Heap) : list Ref :=
  (λ p, p.1)
    <$> filter (λ p, is_Connect (data p.2) = true) (imap (λ i n, (i, n)) h).

(** The alternatives to a node: its next sibling, that one's next
    sibling, and so on. *)
Fixpoint siblings_from (fuel : nat) (h : Heap) (r : Ref) : list Ref :=
  match fuel with
  | O => []
  | S fuel' =>
      match h !! r with
      | Some (mkTreeNode _ _ (Some s)) => s :: siblings_from fuel' h s
      | _ => []
      end
  end.

(** The nodes of the graph from [root]: those of the path, each followed
    by its alternatives. *)
Definition nodes_of (h : Heap) (root : Ref) : list Ref :=
  path h root ≫= (λ r, r :: siblings_from (List.length h) h r).

(** The bytes of the ApplicationData messages sent along the path from
    [root], in order. *)
Definition sent_application_data (h : Heap) (root : Ref) : string :=
  foldr (λ r rest,
           match data_at h r with
           | Some (ApplicationDataGenerator payload) => payload +:+ rest
           | _ => rest
           end)
        EmptyString (path h root).

(** The node at the end of the path from [root]. *)
Definition end_of_path (h : Heap) (root : Ref) : option TreeNode :=
  last (path h root) ≫= (λ r, h !! r).

(** ** [getopt.getopt], line 54 *)

(** The functions of Python's [getopt] module that the call of line 54
    goes through: [getopt], [do_longs], [long_has_args], [do_shorts] and
    [short_has_arg].  [do_longs] and [do_shorts] take the rest of the
    command line and remove from it the argument of an option that wants
    one; here they say which option still wants its argument, and the loop
    of [getopt] takes it. *)

Module Getopt.

Definition GetoptError (msg : string) : Py.BaseException :=
  Py.Exception "GetoptError" msg.

Definition colon : Ascii.ascii := Ascii.ascii_of_nat 58.
Definition equals : Ascii.ascii := Ascii.ascii_of_nat 61.
Definition dash : Ascii.ascii := Ascii.ascii_of_nat 45.

Definition char (a : Ascii.ascii) : string := String a EmptyString.

(** [short_has_arg(opt, shortopts)]: whether the first occurrence of the
    letter [opt] in [shortopts] is followed by a colon; a letter that does
    not occur, or a colon, is not recognized. *)
Fixpoint short_has_arg (opt : Ascii.ascii) (shortopts : string)
  : Py.Res bool :=
  match shortopts with
  | EmptyString =>
      Raise (GetoptError ("option -" +:+ char opt +:+ " not recognized"))
  | String c rest =>
      if Ascii.eqb opt c && negb (Ascii.eqb c colon) then
        Ok (String.prefix (char colon) rest)
      else short_has_arg opt rest
  end.

(** [s.endswith('=')] and [s[:-1]]. *)
Fixpoint ends_with_equals (s : string) : bool :=
  match s with
  | EmptyString => false
  | String c EmptyString => Ascii.eqb c equals
  | String _ rest => ends_with_equals rest
  end.

Fixpoint all_but_last (s : string) : string :=
  match s with
  | EmptyString => EmptyString
  | String _ EmptyString => EmptyString
  | String c rest => String c (all_but_last rest)
  end.

(** [long_has_args(opt, longopts)]: the long option that [opt] names,
    exactly or as a unique prefix, and whether it takes an argument. *)
Definition long_has_args (opt : string) (longopts : list string)
  : Py.Res (bool * string) :=
  let possibilities := filter (λ o, String.prefix opt o = true) longopts in
  match possibilities with
  | [] => Raise (GetoptError ("option --" +:+ opt +:+ " not recognized"))
  | unique_match :: others =>
      if bool_decide (opt ∈ possibilities) then Ok (false, opt)
      else if bool_decide (opt +:+ char equals ∈ possibilities) then
        Ok (true, opt)
      else
        match others with
        | _ :: _ =>
            Raise (GetoptError
                     ("option --" +:+ opt +:+ " not a unique prefix"))
        | [] =>
            if ends_with_equals unique_match then
              Ok (true, all_but_last unique_match)
            else Ok (false, unique_match)
        end
  end.

(** [opt.index('=')] with the two slices around it, when there is one. *)
Fixpoint split_at_equals (s : string) : option (string * string) :=
  match s with
  | EmptyString => None
  | String c rest =>
      if Ascii.eqb c equals then Some (EmptyString, rest)
      else
        match split_at_equals rest with
        | Some (before, after) => Some (String c before, after)
        | None => None
        end
  end.

(** [do_shorts] on the letters of one argument, up to the point where it
    would take the next argument of the command line: the options read,
    and the option that still wants its argument, if there is one. *)
Fixpoint do_shorts (optstring : string) (shortopts : string)
  : Py.Res (list (string * string) * option string) :=
  match optstring with
  | EmptyString => Ok ([], None)
  | String opt optstring' =>
      match short_has_arg opt shortopts with
      | Raise e => Raise e
      | Ok true =>
          match optstring' with
          | EmptyString => Ok ([], Some (char dash +:+ char opt))
          | _ => Ok ([(char dash +:+ char opt, optstring')], None)
          end
      | Ok false =>
          match do_shorts optstring' shortopts with
          | Raise e => Raise e
          | Ok (opts, wanting) =>
              Ok ((char dash +:+ char opt, EmptyString) :: opts, wanting)
          end
      end
  end.

(** [do_longs] on one argument without its two dashes, up to the same
    point: the option read, or the option that still wants its argument. *)
Definition do_longs (opt : string) (longopts : list string)
  : Py.Res (list (string * string) * option string) :=
  let '(opt, optarg) :=
    match split_at_equals opt with
    | Some (before, after) => (before, Some after)
    | None => (opt, None)
    end in
  match long_has_args opt longopts with
  | Raise e => Raise e
  | Ok (has_arg, opt) =>
      let name := char dash +:+ char dash +:+ opt in
      if has_arg then
        match optarg with
        | Some optarg => Ok ([(name, optarg)], None)
        | None => Ok ([], Some name)
        end
      else
        match optarg with
        | Some _ =>
            Raise (GetoptError
                     ("option --" +:+ opt +:+ " must not have an argument"))
        | None => Ok ([(name, EmptyString)], None)
        end
  end.

(** The error for the option [name], written with its dashes, that is
    left without its argument. *)
Definition requires_argument (name : string) : Py.BaseException :=
  GetoptError ("option " +:+ name +:+ " requires argument").

(** The loop of [getopt]: options are read from the front of [args] up to
    the first argument that is not one, or to ["--"]. *)
Fixpoint getopt_loop (opts : list (string * string)) (args : list string)
    (shortopts : string) (longopts : list string)
  : Py.Res (list (string * string) * list string) :=
  match args with
  | [] => Ok (opts, [])
  | arg :: args' =>
      if String.prefix (char dash) arg
         && negb (String.eqb arg (char dash)) then
        if String.eqb arg (char dash +:+ char dash) then Ok (opts, args')
        else
          let read :=
            if String.prefix (char dash +:+ char dash) arg then
              do_longs (String.substring 2 (String.length arg - 2) arg)
                longopts
            else
              do_shorts (String.substring 1 (String.length arg - 1) arg)
                shortopts in
          match read with
          | Raise e => Raise e
          | Ok (new, None) =>
              getopt_loop (opts ++ new) args' shortopts longopts
          | Ok (new, Some name) =>
              match args' with
              | [] => Raise (requires_argument name)
              | optarg :: args'' =>
                  getopt_loop (opts ++ new ++ [(name, optarg)]) args''
                    shortopts longopts
              end
          end
      else Ok (opts, args)
  end.

Definition getopt (args : list string) (shortopts : string)
    (longopts : list string)
  : Py.Res (list (string * string) * list string) :=
  getopt_loop [] args shortopts longopts.

End Getopt.

(** Line 54: [getopt.getopt(argv, "h:p:e:n:", ["help", "no-renego-close"])]. *)
Definition script_getopt (argv : list string)
  : Py.Res (list (string * string) * list string) :=
  Getopt.getopt argv "h:p:e:n:" ["help"; "no-renego-close"].

(** The names of the options that line 54 asks [getopt] for. *)
Definition known_options : list string :=
  ["-h"; "-p"; "-e"; "-n"; "--help"; "--no-renego-close"].

(** Lines 53-75, from [sys.argv[1:]]. *)
Definition read_argv `{Environment} (argv : list string) : M Settings :=
  λ s, match script_getopt argv with
       | Ok (opts, args) => read_command_line opts args s
       | Raise e => (Raise e, s)
       end.

(** [main], from [sys.argv[1:]]. *)
Definition main_argv `{Environment} (argv : list string) : M unit :=
  λ s, match script_getopt argv with
       | Ok (opts, args) => main opts args s
       | Raise e => (Raise e, s)
       end.

(** A run of the script on the command line [argv], from the state [w]
    of the outside. *)
Definition run_script `{Environment} (argv : list string) (w : World)
  : Py.Res unit * Sys World :=
  main_argv argv (mkSys w []).

(** One round of the loop of [getopt], on an argument that is an option:
    the call of [do_longs] or [do_shorts]. *)
Definition read_option (arg : string) (shortopts : string)
    (longopts : list string)
  : Py.Res (list (string * string) * option string) :=
  if String.prefix (Getopt.char Getopt.dash +:+ Getopt.char Getopt.dash) arg
  then
    Getopt.do_longs (String.substring 2 (String.length arg - 2) arg) longopts
  else
    Getopt.do_shorts (String.substring 1 (String.length arg - 1) arg)
      shortopts.

(** A result that, when it is an error, is a [GetoptError]. *)
Definition is_GetoptError {A} (r : Py.Res A) : Prop :=
  match r with
  | Ok _ => True
  | Raise e => ∃ msg, e = Getopt.GetoptError msg
  end.

(** Options that are all among the six of line 54. *)
Definition known (opts : list (string * string)) : Prop :=
  Forall (λ oa, oa.1 ∈ known_options) opts.

(** * Properties *)

(** ** The conversation graphs *)

(** C3, as stated, fails: for the default host and port the sanity
    conversation is not the linear chain of the end-to-end scenario. *)
Lemma C3_sanity_is_not_the_end_to_end_chain :
  ∃ root,
    Dict.getitem "sanity" (conversations_of "localhost" 4433 false).1 = Ok root
    ∧ linear_chain (conversations_of "localhost" 4433 false).2 root
        end_to_end_shape = false.
Proof. exists 0. split; vm_compute; reflexivity. Qed.

(** C3, amended: the sanity conversation is a chain from the [Connect]
    root through the thirteen nodes of [sanity_trunk], each with exactly
    one child and no next sibling, whose ClientHello offers
    [TLS_RSA_WITH_AES_128_CBC_SHA] and [TLS_EMPTY_RENEGOTIATION_INFO_SCSV];
    the chain ends in an expectation of any alert, which is a leaf and has
    the expectation of the close as its next sibling. *)
Theorem C3_sanity_graph (host : string) (port : Z) (no_renego_close : bool) :
  ∃ root alert close,
    Dict.getitem "sanity" (conversations_of host port no_renego_close).1
      = Ok root
    ∧ trunk (conversations_of host port no_renego_close).2 root
      = (sanity_trunk host port, alert)
    ∧ (conversations_of host port no_renego_close).2 !! alert
      = Some (mkTreeNode (ExpectAlert None None) [] (Some close))
    ∧ (conversations_of host port no_renego_close).2 !! close
      = Some (mkTreeNode ExpectClose [] None).
Proof.
  exists 0, 13, 14.
  destruct no_renego_close; split_and!; vm_compute; reflexivity.
Qed.

Ltac compute_items :=
  lazymatch goal with
  | |- Forall _ ?l =>
      let l' := eval vm_compute in l in
      change l with l'
  end.

Ltac find_alert_after_second_hello :=
  lazymatch goal with
  | |- no_renegotiation_after_second_hello ?h ?r =>
      let hello := eval vm_compute in (default 0 (second_client_hello h r)) in
      let alert := eval vm_compute in (default 0 (only_child h hello)) in
      let below := eval vm_compute in (from_option children [] (h !! alert)) in
      exists hello, alert, below; split_and!; vm_compute; reflexivity
  end.

(** C4: in each of the four renegotiation conversations, whatever the
    host, the port and [--no-renego-close], the only child of the second
    ClientHello generator is an alert expectation constrained to level
    [warning] and description [no_renegotiation], with no alternative. *)
Theorem C4_no_renegotiation_alert_expected
    (host : string) (port : Z) (no_renego_close : bool) :
  Dict.keys (conversations_of host port no_renego_close).1
    = "sanity" :: renegotiation_names
  ∧ Forall (λ entry,
              entry.1 = "sanity"
              ∨ no_renegotiation_after_second_hello
                  (conversations_of host port no_renego_close).2 entry.2)
      (Dict.items (conversations_of host port no_renego_close).1).
Proof.
  destruct no_renego_close; (split; [vm_compute; reflexivity|]);
    compute_items;
    repeat (constructor;
            [first [by left | right; find_alert_after_second_hello]|]);
    constructor.
Qed.

Ltac find_reset_before_second_hello :=
  lazymatch goal with
  | |- reset_right_before_second_hello ?h ?r =>
      let hello := eval vm_compute in (default 0 (second_client_hello h r)) in
      let reset := eval vm_compute in (default 0 (head (parents h hello))) in
      exists reset, hello; split_and!;
      [ vm_compute; reflexivity
      | apply (bool_decide_unpack _); vm_compute; exact I
      | vm_compute; reflexivity
      | vm_compute; reflexivity ]
  end.

(** C5: in each of the four renegotiation conversations, whatever the
    host, the port and [--no-renego-close], the ClientHello generator that
    starts the second handshake is the only child of a
    [ResetHandshakeHashes] node and has no other parent; that node is a
    control node, which exchanges no message with the peer. *)
Theorem C5_reset_right_before_second_hello
    (host : string) (port : Z) (no_renego_close : bool) :
  Dict.keys (conversations_of host port no_renego_close).1
    = "sanity" :: renegotiation_names
  ∧ Forall (λ entry,
              entry.1 = "sanity"
              ∨ reset_right_before_second_hello
                  (conversations_of host port no_renego_close).2 entry.2)
      (Dict.items (conversations_of host port no_renego_close).1)
  ∧ node_kind ResetHandshakeHashes = Command
  ∧ performs_io ResetHandshakeHashes = false.
Proof.
  destruct no_renego_close;
    (split_and!; [vm_compute; reflexivity | | reflexivity | reflexivity]);
    compute_items;
    repeat (constructor;
            [first [by left | right; find_reset_before_second_hello]|]);
    constructor.
Qed.

(** ** Sampling, the run loop and the exit status *)

Section Properties.

Context `{Environment}.

(** [random]'s integers below a bound are below it. *)
Hypothesis randbelow_lt : ∀ n w, 0 < n → (randbelow n w).1 < n.

(** *** [random.sample] *)

Lemma pool_step {A} (pool result : list A) (m j : nat) (x y : A) :
  j ≤ m → pool !! j = Some x → pool !! m = Some y →
  take m (<[j := y]> pool) ++ (result ++ [x]) ≡ₚ take (S m) pool ++ result.
Proof.
  intros Hj Hx Hy. rewrite (take_S_r _ _ _ Hy).
  destruct (decide (j = m)) as [->|Hne].
  - rewrite take_insert_ge by lia. simplify_eq.
    rewrite <-!(assoc_L (++)). apply Permutation_app_head, Permutation_app_comm.
  - assert (j < m) as Hlt by lia.
    rewrite take_insert_lt by done.
    assert (take m pool !! j = Some x) as Htx
      by (rewrite lookup_take_lt by done; done).
    pose proof (take_drop_middle _ _ _ Htx) as Hmid.
    rewrite <-Hmid at 2.
    rewrite insert_take_drop by (apply lookup_lt_Some in Htx; done).
    rewrite <-!(assoc_L (++)). apply Permutation_app_head. simpl.
    rewrite (Permutation_app_comm result [x]). simpl.
    rewrite <-Permutation_middle.
    rewrite (Permutation_app_comm _ ([y] ++ result)). simpl.
    rewrite (Permutation_app_comm _ result).
    apply Permutation_swap.
Qed.

Lemma sample_loop_ok {A} (rounds n i : nat) (pool result : list A) (s : Sys World) :
  length pool = n → i + rounds ≤ n →
  ∃ res pool' w',
    sample_loop n rounds i pool result s = (Ok res, mkSys w' (trace s))
    ∧ length pool' = n
    ∧ take (n - i - rounds) pool' ++ res ≡ₚ take (n - i) pool ++ result
    ∧ length res = length result + rounds.
Proof.
  revert i pool result s.
  induction rounds as [|rounds IH]; intros i pool result s Hlen Hle.
  - exists result, pool, (world s). destruct s as [w tr]; simpl.
    split_and!; [done | done | by rewrite Nat.sub_0_r | lia].
  - simpl. destruct (randbelow (n - i) (world s)) as [j w] eqn:Hdraw.
    assert (j < n - i) as Hj.
    { pose proof (randbelow_lt (n - i) (world s)) as Hlt.
      rewrite Hdraw in Hlt. apply Hlt. lia. }
    destruct (lookup_lt_is_Some_2 pool j) as [x Hx]; [lia|].
    destruct (lookup_lt_is_Some_2 pool (n - i - 1)) as [y Hy]; [lia|].
    rewrite Hx, Hy.
    destruct (IH (S i) (<[j := y]> pool) (result ++ [x]) (mkSys w (trace s)))
      as (res & pool' & w' & Hrun & Hlen' & Hperm & Hres).
    { by rewrite length_insert. }
    { lia. }
    exists res, pool', w'. simpl in Hrun. split_and!; [done | done | | ].
    + replace (n - i - S rounds) with (n - S i - rounds) by lia.
      rewrite Hperm. replace (n - i) with (S (n - S i)) by lia.
      apply pool_step; [lia | done |].
      by replace (n - S i) with (n - i - 1) by lia.
    + rewrite Hres, length_app. simpl. lia.
Qed.

(** [random.sample] with [0 <= k <= len(population)] returns [k] items
    taken from distinct places of the population, and prints nothing. *)
Lemma sample_ok {A} (population : list A) (k : Z) (s : Sys World) :
  (0 ≤ k ≤ Z.of_nat (length population))%Z →
  ∃ res w',
    sample population k s = (Ok res, mkSys w' (trace s))
    ∧ length res = Z.to_nat k
    ∧ res ⊆+ population.
Proof.
  intros Hk. unfold sample.
  replace ((0 <=? k)%Z && (k <=? Z.of_nat (length population))%Z) with true
    by (symmetry; apply andb_true_intro; split; apply Z.leb_le; lia).
  simpl.
  destruct (sample_loop_ok (Z.to_nat k) (length population) 0 population [] s)
    as (res & pool' & w' & Hrun & Hlen' & Hperm & Hres); [done | lia |].
  exists res, w'. split_and!; [done | by rewrite Hres | ].
  rewrite Nat.sub_0_r, app_nil_r, firstn_all in Hperm.
  rewrite <-Hperm. apply submseteq_inserts_l. done.
Qed.

(** Out of that range it raises [ValueError] and draws nothing. *)
Lemma sample_out_of_range {A} (population : list A) (k : Z) (s : Sys World) :
  ¬ (0 ≤ k ≤ Z.of_nat (length population))%Z →
  sample population k s
  = (Raise (Py.ValueError "Sample larger than population or is negative"), s).
Proof.
  intros Hk. unfold sample.
  replace ((0 <=? k)%Z && (k <=? Z.of_nat (length population))%Z) with false;
    [done|].
  symmetry. apply andb_false_iff.
  destruct (decide (0 ≤ k)%Z); [right | left]; [apply Z.leb_gt | apply Z.leb_gt]; lia.
Qed.

(** *** The loop body *)

Lemma loop_body_skipped h st c_name c_test t s :
  skipped st c_name = true →
  loop_body h st (c_name, c_test) t s = (Ok t, s).
Proof. intros Hskip. unfold loop_body. by rewrite Hskip. Qed.

Lemma loop_body_run h st c_name c_test t s outcome w :
  skipped st c_name = false →
  runner_run h c_test (world s) = (outcome, w) →
  loop_body h st (c_name, c_test) t s
  = (if handled outcome then Ok (count c_name outcome t)
     else match outcome with Raise e => Raise e | Ok _ => Ok t end,
     mkSys w (trace s ++ events_for c_name c_test outcome)).
Proof.
  intros Hskip Hrun. unfold loop_body. rewrite Hskip.
  unfold bind, print, try_run, events_for, count. simpl. rewrite Hrun.
  destruct outcome as [[]|e]; simpl.
  - by rewrite <-!(assoc_L (++)).
  - destruct (Py.isinstance_Exception e); simpl.
    + unfold ret. by rewrite <-!(assoc_L (++)).
    + by rewrite <-!(assoc_L (++)).
Qed.

(** *** The loop *)

Lemma let_through_skip st c_name c_test tests :
  skipped st c_name = true →
  let_through st ((c_name, c_test) :: tests) = let_through st tests.
Proof.
  intros Hskip. unfold let_through. rewrite filter_cons_False; [done|].
  simpl. by rewrite Hskip.
Qed.

Lemma let_through_keep st c_name c_test tests :
  skipped st c_name = false →
  let_through st ((c_name, c_test) :: tests)
  = (c_name, c_test) :: let_through st tests.
Proof.
  intros Hskip. unfold let_through. by rewrite filter_cons_True.
Qed.

Lemma loop_events_cons x done :
  loop_events (x :: done) = events_for x.1.1 x.1.2 x.2 ++ loop_events done.
Proof. reflexivity. Qed.

Lemma run_loop_cons h st entry tests t s :
  run_loop h st (entry :: tests) t s
  = match loop_body h st entry t s with
    | (Ok t', s1) => run_loop h st tests t' s1
    | (Raise e, s1) => (Raise e, s1)
    end.
Proof. reflexivity. Qed.

(** The loop runs the entries that are let through, in order, until one of
    them raises something that is not an [Exception]; what it prints and
    counts is determined by the outcomes. *)
Lemma run_loop_spec h st tests t s r s' :
  run_loop h st tests t s = (r, s') →
  ∃ outcomes,
    length outcomes ≤ length (let_through st tests)
    ∧ trace s' = trace s ++ loop_events (zip (let_through st tests) outcomes)
    ∧ match r with
      | Ok t' =>
          length outcomes = length (let_through st tests)
          ∧ Forall (λ o, handled o = true) outcomes
          ∧ t' = tally_after (zip (let_through st tests) outcomes) t
      | Raise e =>
          Py.isinstance_Exception e = false
          ∧ ∃ before, outcomes = before ++ [Raise e]
                      ∧ Forall (λ o, handled o = true) before
      end.
Proof.
  revert t s. induction tests as [|[c_name c_test] tests IH]; intros t s Hrun.
  - simpl in Hrun. unfold ret in Hrun. simplify_eq. exists [].
    split_and!; [done | by rewrite app_nil_r | done ..].
  - rewrite run_loop_cons in Hrun.
    destruct (skipped st c_name) eqn:Hskip.
    + rewrite loop_body_skipped in Hrun by done.
      rewrite let_through_skip by done. by apply IH in Hrun.
    + destruct (runner_run h c_test (world s)) as [outcome w] eqn:Hcall.
      rewrite (loop_body_run _ _ _ _ _ _ outcome w) in Hrun by done.
      rewrite let_through_keep by done.
      destruct (handled outcome) eqn:Hhandled.
      * apply IH in Hrun as (outcomes & Hlen & Htrace & Hres).
        exists (outcome :: outcomes). cbn [zip_with length trace] in *.
        rewrite loop_events_cons.
        split_and!; [lia | by rewrite Htrace, <-(assoc_L (++)) |].
        destruct r as [t'|e].
        -- destruct Hres as (? & ? & ?). split_and!; [lia | by constructor | done].
        -- destruct Hres as (? & before & -> & ?). split; [done|].
           exists (outcome :: before). split; [done | by constructor].
      * destruct outcome as [[]|e]; [done|]. simplify_eq. exists [Raise e].
        cbn [zip_with length trace] in *. rewrite loop_events_cons.
        rewrite zip_with_nil_r.
        split_and!; [lia | by rewrite app_nil_r | done |].
        exists []. by split.
Qed.

Lemma executed_app (l1 l2 : list Event) :
  executed (l1 ++ l2) = executed l1 ++ executed l2.
Proof. unfold executed. apply omap_app. Qed.

Lemma executed_events_for c_name c_test outcome :
  executed (events_for c_name c_test outcome) = [(c_name, outcome)].
Proof.
  unfold events_for. destruct outcome as [[]|e]; [done|].
  by destruct (Py.isinstance_Exception e).
Qed.

Lemma executed_loop_events done :
  executed (loop_events done) = results done.
Proof.
  induction done as [|x done IH]; [done|].
  rewrite loop_events_cons, executed_app, executed_events_for, IH. done.
Qed.

Lemma tally_after_spec done t :
  good (tally_after done t) = good t + length (passes (results done))
  ∧ bad (tally_after done t) = bad t + length (failures (results done))
  ∧ failed (tally_after done t) = failed t ++ (failures (results done)).*1.
Proof.
  revert t. induction done as [|[[c_name c_test] outcome] done IH]; intros t.
  - simpl. unfold passes, failures. simpl.
    split_and!; [lia | lia | by rewrite app_nil_r].
  - simpl. destruct (IH (count c_name outcome t)) as (Hg & Hb & Hf).
    rewrite Hg, Hb, Hf. unfold count, passes, failures, passed.
    destruct outcome as [[]|e]; simpl.
    + repeat first [rewrite filter_cons_True by done
                   | rewrite filter_cons_False by done].
      simpl. split_and!; [lia | lia | done].
    + repeat first [rewrite filter_cons_True by done
                   | rewrite filter_cons_False by done].
      simpl. split_and!; [lia | lia | by rewrite <-(assoc_L (++))].
Qed.

(** *** Choosing the tests *)

(** A sample that is returned was asked for within range. *)
Lemma sample_inv {A} (population : list A) (k : Z) (s s' : Sys World) res :
  sample population k s = (Ok res, s') →
  (0 ≤ k ≤ Z.of_nat (length population))%Z
  ∧ trace s' = trace s
  ∧ length res = Z.to_nat k
  ∧ res ⊆+ population.
Proof.
  intros Hrun.
  destruct (decide (0 ≤ k ≤ Z.of_nat (length population))%Z) as [Hk|Hk].
  - destruct (sample_ok population k s Hk) as (res' & w' & Hrun' & ? & ?).
    rewrite Hrun' in Hrun. by simplify_eq.
  - by rewrite sample_out_of_range in Hrun.
Qed.

Lemma regular_tests_not_sanity conversations entry :
  entry ∈ regular_tests conversations → entry.1 ≠ "sanity".
Proof. unfold regular_tests. rewrite list_elem_of_filter. by intros [? _]. Qed.

Lemma regular_tests_sublist conversations :
  regular_tests conversations `sublist_of` Dict.items conversations.
Proof. apply sublist_filter. Qed.

Lemma regular_tests_NoDup conversations :
  NoDup (Dict.keys conversations) → NoDup (regular_tests conversations).*1.
Proof.
  intros Hkeys. eapply sublist_NoDup; [exact Hkeys|].
  apply fmap_sublist, regular_tests_sublist.
Qed.

Lemma submseteq_NoDup {A} (l k : list A) : l ⊆+ k → NoDup k → NoDup l.
Proof.
  intros [k' Hperm]%submseteq_Permutation Hk. rewrite Hperm in Hk.
  by apply NoDup_app in Hk as [? _].
Qed.

Lemma regular_tests_length conversations :
  length (regular_tests conversations) ≤ Dict.len conversations.
Proof. apply sublist_length, regular_tests_sublist. Qed.

(** The size asked of [random.sample] at line 271. *)
Lemma sample_size num_limit conversations :
  (∀ k, num_limit = Some k → (0 ≤ k)%Z) →
  Z.min (limit_or_all num_limit conversations)
        (Z.of_nat (length (regular_tests conversations)))
  = Z.of_nat
      match num_limit with
      | Some k =>
          if (k =? 0)%Z then length (regular_tests conversations)
          else Z.to_nat k `min` length (regular_tests conversations)
      | None => length (regular_tests conversations)
      end.
Proof.
  intros Hk. pose proof (regular_tests_length conversations).
  unfold limit_or_all. destruct num_limit as [k|]; simpl; [|lia].
  specialize (Hk k eq_refl). destruct (k =? 0)%Z eqn:Hz; simpl; lia.
Qed.

(** C1, amended: for a limit [k >= 1] given with [-n], line 271 puts
    exactly [min(k, M)] of the [M] non-sanity conversations into
    [sampled_tests], taken from distinct entries of the dict, so that no
    name occurs twice; with a limit of 0, or none, it takes all [M].
    ([M] is at most 21, the range in which [random.sample] runs the
    selection loop that [sample] follows.) *)
Theorem C1_sample_count (num_limit : option Z) (conversations : Dict.t Ref)
    (s : Sys World) :
  NoDup (Dict.keys conversations) →
  length (regular_tests conversations) ≤ 21 →
  (∀ k, num_limit = Some k → (0 ≤ k)%Z) →
  ∃ sampled w',
    sampled_tests num_limit conversations s = (Ok sampled, mkSys w' (trace s))
    ∧ length sampled
      = match num_limit with
        | Some k =>
            if (k =? 0)%Z then length (regular_tests conversations)
            else Z.to_nat k `min` length (regular_tests conversations)
        | None => length (regular_tests conversations)
        end
    ∧ sampled ⊆+ regular_tests conversations
    ∧ NoDup sampled.*1.
Proof.
  intros Hkeys _ Hk. unfold sampled_tests.
  rewrite (sample_size _ _ Hk).
  destruct (sample_ok (regular_tests conversations)
              (Z.of_nat
                 match num_limit with
                 | Some k =>
                     if (k =? 0)%Z then length (regular_tests conversations)
                     else Z.to_nat k `min` length (regular_tests conversations)
                 | None => length (regular_tests conversations)
                 end) s)
    as (sampled & w' & Hrun & Hlen & Hsub).
  { destruct num_limit as [k|]; [destruct (k =? 0)%Z|]; lia. }
  exists sampled, w'. rewrite Nat2Z.id in Hlen.
  split_and!; [done | done | done |].
  eapply submseteq_NoDup; [|by apply regular_tests_NoDup].
  by apply fmap_submseteq.
Qed.

(** *** From the dict to the end of the loop *)

Lemma sampled_tests_inv num_limit conversations s sampled s' :
  sampled_tests num_limit conversations s = (Ok sampled, s') →
  trace s' = trace s
  ∧ sampled ⊆+ regular_tests conversations
  ∧ Forall (λ entry, entry.1 ≠ "sanity") sampled.
Proof.
  unfold sampled_tests. intros (_ & Htrace & _ & Hsub)%sample_inv.
  split_and!; [done | done |]. apply Forall_forall. intros entry Hin.
  apply (regular_tests_not_sanity conversations). by eapply elem_of_submseteq.
Qed.

Lemma sampled_tests_trace num_limit conversations s r s' :
  sampled_tests num_limit conversations s = (r, s') → trace s' = trace s.
Proof.
  destruct r as [sampled|e].
  - by intros (? & _)%sampled_tests_inv.
  - unfold sampled_tests.
    set (population := regular_tests conversations).
    set (k := Z.min _ _).
    destruct (decide (0 ≤ k ≤ Z.of_nat (length population))%Z) as [Hk|Hk].
    + destruct (sample_ok population k s Hk) as (? & ? & -> & _). done.
    + rewrite sample_out_of_range by done. by intros [= _ <-].
Qed.

Lemma ordered_tests_inv num_limit conversations s tests s' :
  ordered_tests num_limit conversations s = (Ok tests, s') →
  ∃ sanity sampled,
    Dict.getitem "sanity" conversations = Ok sanity
    ∧ sampled_tests num_limit conversations s = (Ok sampled, s')
    ∧ tests = ("sanity", sanity) :: sampled ++ [("sanity", sanity)].
Proof.
  unfold ordered_tests, bind, lift, ret.
  destruct (Dict.getitem "sanity" conversations) as [sanity|e]; [|done].
  destruct (sampled_tests num_limit conversations s) as [[sampled|e] s1];
    [|done].
  intros [= <- <-]. by exists sanity, sampled.
Qed.

Lemma ordered_tests_trace num_limit conversations s r s' :
  ordered_tests num_limit conversations s = (r, s') → trace s' = trace s.
Proof.
  unfold ordered_tests, bind, lift, ret.
  destruct (Dict.getitem "sanity" conversations) as [sanity|e];
    [|by intros [= _ <-]].
  destruct (sampled_tests num_limit conversations s) as [[sampled|e] s1] eqn:Hs;
    apply sampled_tests_trace in Hs; by intros [= _ <-].
Qed.

(** A run of lines 260-294 either stops before the loop, with nothing
    printed or run, or enters the loop with the ordered tests. *)
Lemma run_tests_inv h st conversations s r s' :
  run_tests h st conversations s = (r, s') →
  (trace s' = trace s ∧ ∃ e, r = Raise e)
  ∨ ∃ sanity sampled s1,
      Dict.getitem "sanity" conversations = Ok sanity
      ∧ sampled_tests (num_limit st) conversations s = (Ok sampled, s1)
      ∧ trace s1 = trace s
      ∧ run_loop h st (("sanity", sanity) :: sampled ++ [("sanity", sanity)])
          (mkTally 0 0 []) s1 = (r, s').
Proof.
  unfold run_tests, bind.
  destruct (ordered_tests (num_limit st) conversations s)
    as [[tests|e] s1] eqn:Hord.
  - intros Hloop. right.
    pose proof (ordered_tests_trace _ _ _ _ _ Hord).
    apply ordered_tests_inv in Hord as (sanity & sampled & ? & ? & ->).
    by exists sanity, sampled, s1.
  - intros [= <- <-]. left. apply ordered_tests_trace in Hord. eauto.
Qed.

Lemma attempted_loop_events tests outcomes :
  attempted (loop_events (zip tests outcomes))
  = (take (length outcomes) tests).*1.
Proof.
  unfold attempted. rewrite executed_loop_events. unfold results.
  rewrite <-list_fmap_compose.
  revert outcomes. induction tests as [|x tests IH]; intros [|o outcomes];
    simpl; [done | done | done |]. by rewrite <-IH.
Qed.

Lemma let_through_ordered st sanity sampled :
  skipped st "sanity" = false →
  let_through st (("sanity", sanity) :: sampled ++ [("sanity", sanity)])
  = ("sanity", sanity) :: let_through st sampled ++ [("sanity", sanity)].
Proof.
  intros Hskip. rewrite let_through_keep by done. f_equal.
  unfold let_through. rewrite filter_app. f_equal.
  by rewrite filter_cons_True.
Qed.

Lemma let_through_ordered_skipped st sanity sampled :
  skipped st "sanity" = true →
  let_through st (("sanity", sanity) :: sampled ++ [("sanity", sanity)])
  = let_through st sampled.
Proof.
  intros Hskip. rewrite let_through_skip by done.
  unfold let_through. rewrite filter_app.
  rewrite (filter_cons_False _ _ []); [by rewrite app_nil_r|].
  simpl. by rewrite Hskip.
Qed.

Lemma let_through_not_skipped st tests entry :
  entry ∈ let_through st tests → skipped st entry.1 = false.
Proof. unfold let_through. rewrite list_elem_of_filter. by intros [? _]. Qed.

(** A run of lines 260-294 that gets to the end of the loop. *)
Lemma run_tests_completed h st conversations w t s' :
  run_tests h st conversations (mkSys w []) = (Ok t, s') →
  ∃ sanity sampled s1 outcomes,
    Dict.getitem "sanity" conversations = Ok sanity
    ∧ sampled_tests (num_limit st) conversations (mkSys w [])
      = (Ok sampled, s1)
    ∧ length outcomes
      = length (let_through st
                  (("sanity", sanity) :: sampled ++ [("sanity", sanity)]))
    ∧ Forall (λ o, handled o = true) outcomes
    ∧ trace s'
      = loop_events
          (zip (let_through st
                  (("sanity", sanity) :: sampled ++ [("sanity", sanity)]))
               outcomes)
    ∧ t = tally_after
            (zip (let_through st
                    (("sanity", sanity) :: sampled ++ [("sanity", sanity)]))
                 outcomes)
            (mkTally 0 0 []).
Proof.
  intros [[_ [e ?]]|(sanity & sampled & s1 & Hget & Hsam & Htr & Hloop)]%run_tests_inv;
    [done|].
  apply run_loop_spec in Hloop as (outcomes & _ & Htrace & Hlen & Hall & Ht).
  exists sanity, sampled, s1, outcomes. rewrite Htr in Htrace.
  by split_and!.
Qed.

Lemma attempted_completed tests outcomes :
  length outcomes = length tests →
  attempted (loop_events (zip tests outcomes)) = tests.*1.
Proof.
  intros Hlen. rewrite attempted_loop_events, Hlen. by rewrite firstn_all.
Qed.

(** Only entries that line 275 lets through are ever run. *)
Lemma attempted_not_skipped h st conversations w r s' c_name :
  run_tests h st conversations (mkSys w []) = (r, s') →
  c_name ∈ attempted (trace s') → skipped st c_name = false.
Proof.
  intros [[Htr _]|(sanity & sampled & s1 & _ & _ & Htr & Hloop)]%run_tests_inv.
  - rewrite Htr. by intros ?%elem_of_nil.
  - apply run_loop_spec in Hloop as (outcomes & _ & Htrace & _).
    rewrite Htr in Htrace. rewrite Htrace. simpl.
    rewrite attempted_loop_events.
    intros ([name c_test] & -> & Hin)%list_elem_of_fmap.
    apply subseteq_take in Hin.
    by apply let_through_not_skipped in Hin.
Qed.

(** Line 275, spelled out. *)
Lemma skipped_iff st c_name :
  skipped st c_name = true
  ↔ c_name ∈ run_exclude st
    ∨ ∃ only, run_only st = Some only ∧ only ≠ ∅ ∧ c_name ∉ only.
Proof.
  unfold skipped, Py.truthy_set, Py.contains.
  destruct (run_only st) as [only|].
  - destruct (decide (only = ∅)) as [Hempty|Hne].
    + rewrite (bool_decide_eq_true_2 _ Hempty). simpl.
      rewrite bool_decide_eq_true. split; [by left|].
      intros [?|(only' & [= <-] & ? & _)]; done.
    + rewrite (bool_decide_eq_false_2 _ Hne). simpl.
      rewrite orb_true_iff, negb_true_iff, bool_decide_eq_false,
        bool_decide_eq_true.
      split.
      * intros [?|?]; [right; by exists only | by left].
      * intros [?|(only' & [= <-] & _ & ?)]; [by right | by left].
  - rewrite bool_decide_eq_true. split; [by left|].
    intros [?|(only' & ? & _)]; done.
Qed.

(** C9: the filters of line 275 play no part in the sampling; the loop
    applies them to every entry of the ordered sequence, the two sanity
    entries included.  No conversation whose name is in [run_exclude], or
    is missing from a non-empty [run_only], is ever run; a loop that
    completes has run exactly the entries of [sanity, sampled..., sanity]
    that pass the filter, in order; so when "sanity" itself is filtered
    out it is not run at all and at most the sampled conversations are. *)
Theorem C9_filters_after_sampling h st conversations w r s' :
  run_tests h st conversations (mkSys w []) = (r, s') →
  (∀ c_name,
     c_name ∈ run_exclude st
     ∨ (∃ only, run_only st = Some only ∧ only ≠ ∅ ∧ c_name ∉ only) →
     c_name ∉ attempted (trace s'))
  ∧ (∀ t, r = Ok t →
     ∃ sanity sampled s1,
       Dict.getitem "sanity" conversations = Ok sanity
       ∧ sampled_tests (num_limit st) conversations (mkSys w [])
         = (Ok sampled, s1)
       ∧ attempted (trace s')
         = (filter (λ entry, skipped st entry.1 = false)
              (("sanity", sanity) :: sampled ++ [("sanity", sanity)])).*1
       ∧ (skipped st "sanity" = true →
          ("sanity" ∉ attempted (trace s'))
          ∧ length (attempted (trace s')) ≤ length sampled)).
Proof.
  intros Hrun. split.
  - intros c_name Hfilter%skipped_iff Hin.
    apply (attempted_not_skipped _ _ _ _ _ _ _ Hrun) in Hin. congruence.
  - intros t ->.
    destruct (run_tests_completed _ _ _ _ _ _ Hrun)
      as (sanity & sampled & s1 & outcomes & Hget & Hsam & Hlen & _ & Htr & _).
    exists sanity, sampled, s1. rewrite Htr, attempted_completed by done.
    split_and!; [done | done | done |].
    intros Hskip. rewrite let_through_ordered_skipped by done. split.
    + intros ([name c_test] & Hname & Hin)%list_elem_of_fmap.
      apply let_through_not_skipped in Hin. simpl in *. congruence.
    + rewrite length_fmap. unfold let_through. apply length_filter.
Qed.

(** The dict that lines 77-257 fill has a "sanity" entry. *)
Lemma conversations_have_sanity host port no_renego_close :
  Dict.getitem "sanity" (conversations_of host port no_renego_close).1 = Ok 0.
Proof. destruct no_renego_close; vm_compute; reflexivity. Qed.

(** C2, amended: whenever lines 269-272 return, the ordered sequence is
    sanity, the sampled conversations, sanity, none of the sampled ones
    being named "sanity"; they return for every dict with a "sanity"
    entry, as the one that [main] builds, and every limit that is not
    negative.  The loop runs, in order, the entries of that sequence that
    pass the filter of line 275, up to the end or up to the entry whose
    exception ends the loop.  So when "sanity" passes the filter it is the
    first conversation run, also in a run that is interrupted, and in a
    run that completes it is the last one too, with between the two the
    sampled conversations that pass the filter; when "sanity" is filtered
    out it is not run at all. *)
Theorem C2_sanity_first_and_last h st conversations w :
  (∀ tests s1,
     ordered_tests (num_limit st) conversations (mkSys w []) = (Ok tests, s1) →
     ∃ sanity sampled,
       Dict.getitem "sanity" conversations = Ok sanity
       ∧ sampled_tests (num_limit st) conversations (mkSys w [])
         = (Ok sampled, s1)
       ∧ Forall (λ entry, entry.1 ≠ "sanity") sampled
       ∧ tests = ("sanity", sanity) :: sampled ++ [("sanity", sanity)])
  ∧ (∀ sanity,
       Dict.getitem "sanity" conversations = Ok sanity →
       (∀ k, num_limit st = Some k → (0 ≤ k)%Z) →
       ∃ tests s1,
         ordered_tests (num_limit st) conversations (mkSys w [])
         = (Ok tests, s1))
  ∧ (∀ tests s1 r s',
       ordered_tests (num_limit st) conversations (mkSys w []) = (Ok tests, s1) →
       run_tests h st conversations (mkSys w []) = (r, s') →
       attempted (trace s')
         `prefix_of` (filter (λ entry, skipped st entry.1 = false) tests).*1
       ∧ (∀ t, r = Ok t →
            attempted (trace s')
            = (filter (λ entry, skipped st entry.1 = false) tests).*1)
       ∧ (skipped st "sanity" = false →
            head (attempted (trace s')) = Some "sanity"
            ∧ ∀ t, r = Ok t →
                sanity_first_and_last (attempted (trace s'))
                ∧ ∀ sanity sampled,
                    tests = ("sanity", sanity) :: sampled ++ [("sanity", sanity)] →
                    attempted (trace s')
                    = "sanity"
                      :: (filter (λ entry, skipped st entry.1 = false)
                            sampled).*1
                      ++ ["sanity"])
       ∧ (skipped st "sanity" = true → "sanity" ∉ attempted (trace s')))
  ∧ (∀ host port no_renego_close,
       ∃ sanity,
         Dict.getitem "sanity" (conversations_of host port no_renego_close).1
         = Ok sanity).
Proof.
  split_and!; [| | |by eexists; apply conversations_have_sanity].
  - intros tests s1 (sanity & sampled & Hget & Hsam & ->)%ordered_tests_inv.
    destruct (sampled_tests_inv _ _ _ _ _ Hsam) as (_ & _ & Hnames).
    by exists sanity, sampled.
  - intros sanity Hget Hk. unfold ordered_tests, sampled_tests, bind, lift, ret.
    rewrite Hget, (sample_size _ _ Hk).
    destruct (sample_ok (regular_tests conversations)
                (Z.of_nat
                   match num_limit st with
                   | Some k =>
                       if (k =? 0)%Z then length (regular_tests conversations)
                       else Z.to_nat k `min` length (regular_tests conversations)
                   | None => length (regular_tests conversations)
                   end) (mkSys w []))
      as (sampled & w' & -> & _).
    { destruct (num_limit st) as [k|]; [destruct (k =? 0)%Z|]; lia. }
    eauto.
  - intros tests s1 r s' Hord Hrun.
    pose proof (ordered_tests_trace _ _ _ _ _ Hord) as Htr.
    unfold run_tests, bind in Hrun. rewrite Hord in Hrun.
    apply ordered_tests_inv in Hord as (sanity & sampled & Hget & Hsam & ->).
    destruct (sampled_tests_inv _ _ _ _ _ Hsam) as (_ & _ & Hnames).
    apply run_loop_spec in Hrun as (outcomes & _ & Htrace & Hres).
    rewrite Htr in Htrace. simpl in Htrace.
    fold (let_through st (("sanity", sanity) :: sampled ++ [("sanity", sanity)])).
    assert (attempted (trace s')
            = (take (length outcomes)
                 (let_through st
                    (("sanity", sanity) :: sampled ++ [("sanity", sanity)]))).*1)
      as Hatt by (by rewrite Htrace, attempted_loop_events).
    split_and!.
    + rewrite Hatt.
      rewrite <-(take_drop (length outcomes) (let_through st _)) at 2.
      rewrite fmap_app. by apply prefix_app_r.
    + intros t ->. destruct Hres as (Hlen & _ & _).
      by rewrite Hatt, Hlen, firstn_all.
    + intros Hskip. rewrite let_through_ordered in Hatt, Hres by done.
      assert (0 < length outcomes) as Hpos.
      { destruct r as [t|e].
        - destruct Hres as (-> & _). simpl. lia.
        - destruct Hres as (_ & before & -> & _). rewrite length_app. simpl. lia. }
      split.
      * rewrite Hatt. destruct (length outcomes); [lia | done].
      * intros t ->. destruct Hres as (Hlen & _ & _).
        rewrite Hatt, Hlen, firstn_all. simpl. rewrite fmap_app. split.
        -- exists (let_through st sampled).*1. split; [done|].
           intros ([name c_test] & Hname & Hin)%list_elem_of_fmap.
           apply list_elem_of_filter in Hin as [_ Hin].
           rewrite Forall_forall in Hnames. by apply Hnames in Hin.
        -- intros sanity0 sampled0 [= _ Heq].
           by apply app_inj_tail in Heq as [<- _].
    + intros Hskip. rewrite Hatt.
      intros ([name c_test] & Hname & Hin)%list_elem_of_fmap.
      apply subseteq_take, let_through_not_skipped in Hin.
      simpl in *. congruence.
Qed.

(** A loop that ends by an exception ends right after the conversation
    that raised it, which line 275 had let through: the exception is not
    an [Exception], and nothing is printed or counted after it. *)
Lemma run_loop_aborted h st tests t s e s' :
  run_loop h st tests t s = (Raise e, s') →
  Py.isinstance_Exception e = false
  ∧ ∃ c_name c_test before,
      (c_name, c_test) ∈ tests
      ∧ skipped st c_name = false
      ∧ trace s'
        = trace s ++ before
          ++ [Print (c_name +:+ " ..."); Executed c_name c_test (Raise e)].
Proof.
  revert t s. induction tests as [|[c_name c_test] tests IH]; intros t s.
  - simpl. unfold ret. done.
  - rewrite run_loop_cons. destruct (skipped st c_name) eqn:Hskip.
    + rewrite loop_body_skipped by done.
      intros (? & name & test & before & ? & ? & ?)%IH. split; [done|].
      exists name, test, before. split_and!; [|done|done].
      by apply list_elem_of_further.
    + destruct (runner_run h c_test (world s)) as [outcome w] eqn:Hcall.
      rewrite (loop_body_run _ _ _ _ _ _ outcome w) by done.
      destruct (handled outcome) eqn:Hhandled.
      * intros (? & name & test & before & ? & ? & Htrace)%IH. split; [done|].
        exists name, test, (events_for c_name c_test outcome ++ before).
        split_and!; [by apply list_elem_of_further | done |].
        simpl in Htrace. by rewrite Htrace, <-!(assoc_L (++)).
      * destruct outcome as [[]|e0]; [done|]. intros [= <- <-].
        simpl in Hhandled. split; [done|].
        exists c_name, c_test, []. split_and!; [apply list_elem_of_here | done |].
        unfold events_for. simpl. by rewrite Hhandled.
Qed.


(** *** The tally, the summary and the exit status *)

Lemma passes_failures_length l :
  length (passes l) + length (failures l) = length l.
Proof.
  unfold passes, failures. induction l as [|x l IH]; [done|].
  destruct (passed x) eqn:Hx.
  - rewrite filter_cons_True, filter_cons_False by (by rewrite ?Hx).
    simpl. lia.
  - rewrite filter_cons_False, filter_cons_True by (by rewrite ?Hx).
    simpl. lia.
Qed.

Lemma failures_nil l :
  Forall (λ r, passed r = true) l → failures l = [].
Proof.
  intros Hall. unfold failures. destruct (filter _ l) as [|x l'] eqn:Hf; [done|].
  assert (x ∈ filter (λ r, passed r = false) l) as Hin
    by (rewrite Hf; apply list_elem_of_here).
  apply list_elem_of_filter in Hin as [Hx Hin].
  rewrite Forall_forall in Hall. apply Hall in Hin. congruence.
Qed.

Lemma failures_pos l :
  Exists (λ r, passed r = false) l → 0 < length (failures l).
Proof.
  intros (x & Hin & Hx)%Exists_exists.
  assert (x ∈ failures l) as Hf by (by apply list_elem_of_filter).
  destruct (failures l); [by apply elem_of_nil in Hf | simpl; lia].
Qed.

(** A completed run's tally, read off the conversations it ran. *)
Lemma run_tests_tally h st conversations w t s' :
  run_tests h st conversations (mkSys w []) = (Ok t, s') →
  good t = length (passes (executed (trace s')))
  ∧ bad t = length (failures (executed (trace s')))
  ∧ failed t = (failures (executed (trace s'))).*1.
Proof.
  intros (sanity & sampled & s1 & outcomes & _ & _ & _ & _ & -> & ->)
    %run_tests_completed.
  rewrite executed_loop_events.
  destruct (tally_after_spec
              (zip (let_through st
                      (("sanity", sanity) :: sampled ++ [("sanity", sanity)]))
                   outcomes) (mkTally 0 0 [])) as (Hg & Hb & Hf).
  by rewrite Hg, Hb, Hf.
Qed.

Lemma summary_spec t s :
  (summary t s).1
  = (if decide (0 < bad t) then Raise (Py.SystemExit 1) else Ok tt)
  ∧ executed (trace (summary t s).2) = executed (trace s).
Proof.
  unfold summary, bind, print, lift, ret, Py.sys_exit. simpl.
  destruct (decide (0 < bad t)); simpl;
    rewrite <-!(assoc_L (++)), executed_app; simpl; by rewrite app_nil_r.
Qed.

Lemma handle_opts_ok opts st s st' s' :
  handle_opts opts st s = (Ok st', s') → s' = s.
Proof.
  revert st s. induction opts as [|[opt arg] opts IH]; intros st s; simpl.
  - unfold ret. by intros [= _ <-].
  - repeat case_match; unfold bind, lift, raise in *; simpl;
      repeat case_match; simplify_eq; eauto; try done.
    all: unfold help_msg, bind, print in *; simpl in *; simplify_eq.
Qed.

Lemma read_command_line_ok opts args s st s' :
  read_command_line opts args s = (Ok st, s') → s' = s.
Proof.
  unfold read_command_line, bind, ret.
  destruct (handle_opts opts defaults s) as [[st0|e] s0] eqn:Hopts; [|done].
  apply handle_opts_ok in Hopts. by intros [= _ <-].
Qed.

(** C7: when [main] gets to its end, the process exits with status 1 if
    at least one of the conversations it ran failed, and with status 0 if
    each of them succeeded. *)
Theorem C7_exit_status opts args w st s1 t s2 :
  read_command_line opts args (mkSys w []) = (Ok st, s1) →
  build_and_run st s1 = (Ok t, s2) →
  (Exists (λ r, passed r = false) (executed (trace s2)) →
   Py.interpreter_exit (run_main opts args w).1 = Py.ExitStatus 1)
  ∧ (Forall (λ r, passed r = true) (executed (trace s2)) →
     Py.interpreter_exit (run_main opts args w).1 = Py.ExitStatus 0)
  ∧ executed (trace (run_main opts args w).2) = executed (trace s2).
Proof.
  intros Hread Hrun.
  assert (run_main opts args w = summary t s2) as ->.
  { unfold run_main, main, bind. by rewrite Hread, Hrun. }
  apply read_command_line_ok in Hread as ->.
  unfold build_and_run in Hrun.
  destruct (conversations_of _ _ _) as [conversations h].
  apply run_tests_tally in Hrun as (_ & Hbad & _).
  destruct (summary_spec t s2) as [-> ->].
  split_and!; [| |done].
  - intros Hfail%failures_pos. rewrite <-Hbad in Hfail.
    by rewrite decide_True.
  - intros Hpass%failures_nil. rewrite Hpass in Hbad. simpl in Hbad.
    rewrite decide_False by lia. done.
Qed.

Lemma executed_in_events_for c_name c_test e name c outcome :
  Executed c_name c_test (Raise e) ∈ events_for name c outcome →
  name = c_name ∧ c = c_test ∧ outcome = Raise e.
Proof.
  unfold events_for. rewrite elem_of_app.
  intros [Hin|Hin].
  - apply elem_of_cons in Hin as [?|Hin]; [done|].
    apply list_elem_of_singleton in Hin. by simplify_eq.
  - destruct outcome as [[]|e'].
    + by apply list_elem_of_singleton in Hin.
    + destruct (Py.isinstance_Exception e'); [|by apply elem_of_nil in Hin].
      apply elem_of_cons in Hin as [?|Hin]; [done|].
      by apply list_elem_of_singleton in Hin.
Qed.

(** In the trace of a completed loop every failure is followed by the
    print of its traceback. *)
Lemma failure_printed tests outcomes c_name c_test e :
  Forall (λ o, handled o = true) outcomes →
  Executed c_name c_test (Raise e) ∈ loop_events (zip tests outcomes) →
  Py.isinstance_Exception e = true
  ∧ ∃ before after,
      loop_events (zip tests outcomes)
      = before ++ [Executed c_name c_test (Raise e);
                   Print "Error while processing";
                   Print (format_exc e)] ++ after.
Proof.
  intros Hall Hin. unfold loop_events in Hin.
  apply list_elem_of_bind in Hin as ([[name c] outcome] & Hev & Hdone).
  simpl in Hev. apply executed_in_events_for in Hev as (? & ? & ?). subst.
  assert (Py.isinstance_Exception e = true) as Hexc.
  { apply elem_of_zip_r in Hdone. rewrite Forall_forall in Hall.
    by apply Hall in Hdone. }
  split; [done|].
  apply list_elem_of_split in Hdone as (d1 & d2 & ->).
  exists (loop_events d1 ++ [Print (c_name +:+ " ...")]), (loop_events d2).
  unfold loop_events. rewrite bind_app. simpl.
  unfold events_for at 2. rewrite Hexc. by rewrite <-!(assoc_L (++)).
Qed.

(** C8, amended: what a completed loop leaves as result data is the pair
    of counters and the list of names of line 261-263, started at 0, 0
    and the empty list by that run: [good] is the number of conversations
    that passed, [bad] the number that failed, and [failed] holds the name
    of each failure in the order they happened (a name is there once per
    failure).  The exception of a failure is not kept: its traceback is
    printed right after the conversation is run. *)
Theorem C8_result_data h st conversations w t s' :
  run_tests h st conversations (mkSys w []) = (Ok t, s') →
  good t = length (passes (executed (trace s')))
  ∧ bad t = length (failures (executed (trace s')))
  ∧ failed t = (failures (executed (trace s'))).*1
  ∧ ∀ c_name c_test e,
      Executed c_name c_test (Raise e) ∈ trace s' →
      Py.isinstance_Exception e = true
      ∧ ∃ before after,
          trace s'
          = before ++ [Executed c_name c_test (Raise e);
                       Print "Error while processing";
                       Print (format_exc e)] ++ after.
Proof.
  intros Hrun.
  destruct (run_tests_tally _ _ _ _ _ _ Hrun) as (Hg & Hb & Hf).
  split_and!; [done | done | done |].
  destruct (run_tests_completed _ _ _ _ _ _ Hrun)
    as (sanity & sampled & s1 & outcomes & _ & _ & _ & Hall & -> & _).
  intros c_name c_test e. by apply failure_printed.
Qed.

(** C10: a pass of the loop body that runs a conversation adds one to
    exactly one of [good] and [bad], and appends the name to [failed]
    exactly when it is [bad] that grows; a skipped entry changes nothing.
    So when the loop is over, [good + bad] is the number of conversations
    run, and [failed] lists, once per failure and in order, the names of
    the conversations counted in [bad]. *)
Theorem C10_counters h st conversations w t s' :
  run_tests h st conversations (mkSys w []) = (Ok t, s') →
  good t + bad t = length (executed (trace s'))
  ∧ length (failed t) = bad t
  ∧ failed t = (failures (executed (trace s'))).*1
  ∧ ∀ c_name c_test t0 s0 t1 s1,
      loop_body h st (c_name, c_test) t0 s0 = (Ok t1, s1) →
      if skipped st c_name then t1 = t0 ∧ s1 = s0
      else
        (good t1 = S (good t0) ∧ bad t1 = bad t0 ∧ failed t1 = failed t0)
        ∨ (good t1 = good t0 ∧ bad t1 = S (bad t0)
           ∧ failed t1 = failed t0 ++ [c_name]).
Proof.
  intros Hrun.
  destruct (run_tests_tally _ _ _ _ _ _ Hrun) as (Hg & Hb & Hf).
  split_and!.
  - rewrite Hg, Hb. apply passes_failures_length.
  - by rewrite Hf, length_fmap.
  - done.
  - intros c_name c_test t0 s0 t1 s1 Hbody.
    destruct (skipped st c_name) eqn:Hskip.
    + rewrite loop_body_skipped in Hbody by done. by simplify_eq.
    + destruct (runner_run h c_test (world s0)) as [outcome w0] eqn:Hcall.
      rewrite (loop_body_run _ _ _ _ _ _ outcome w0) in Hbody by done.
      destruct outcome as [[]|e]; simpl in Hbody.
      * simplify_eq. by left.
      * destruct (Py.isinstance_Exception e); simplify_eq. by right.
Qed.

End Properties.

(** ** The script on a concrete outside *)

Lemma demo_randbelow_lt (n : nat) (w : Demo.State) :
  0 < n → (Demo.demo_randbelow n w).1 < n.
Proof. intros Hn. simpl. apply Nat.mod_upper_bound. lia. Qed.

(** C1, as stated, fails for [-n 0]: the limit is 0, and all four
    non-sanity conversations are sampled, not [min(0, 4) = 0] of them. *)
Lemma C1_limit_zero_samples_all :
  ∃ st s1 sampled s2,
    read_command_line [("-n", "0")] [] (Demo.start Demo.healthy) = (Ok st, s1)
    ∧ num_limit st = Some 0%Z
    ∧ sampled_tests (num_limit st)
        (conversations_of (host st) (port st) (no_renego_close st)).1 s1
      = (Ok sampled, s2)
    ∧ length (regular_tests
                (conversations_of (host st) (port st) (no_renego_close st)).1)
      = 4
    ∧ length sampled = 4
    ∧ length sampled
      ≠ Z.to_nat
          (Z.min 0
             (Z.of_nat
                (length
                   (regular_tests
                      (conversations_of (host st) (port st)
                         (no_renego_close st)).1)))).
Proof.
  do 4 eexists. split; [vm_compute; reflexivity|].
  split; [reflexivity|]. split; [vm_compute; reflexivity|].
  split; [vm_compute; reflexivity|]. split; [reflexivity|].
  vm_compute. lia.
Qed.

(** With [-n 2] two of the four non-sanity conversations are sampled. *)
Lemma C1_sample_count_witness :
  ∃ sampled w',
    sampled_tests (Some 2%Z) Demo.conversations (Demo.start Demo.healthy)
    = (Ok sampled, mkSys w' [])
    ∧ length sampled = 2
    ∧ sampled ⊆+ regular_tests Demo.conversations
    ∧ NoDup sampled.*1.
Proof.
  apply (C1_sample_count (H:=Demo.env) demo_randbelow_lt (Some 2%Z) Demo.conversations
           (Demo.start Demo.healthy)).
  - apply (bool_decide_unpack _). vm_compute. exact I.
  - vm_compute. lia.
  - intros k [= <-]. lia.
Defined.

(** C2, as stated, fails for [-e sanity]: the run completes, four
    conversations are run, and "sanity" is not among them. *)
Lemma C2_sanity_excluded_never_runs :
  ∃ s',
    run_main (H:=Demo.env) [("-e", "sanity")] [] Demo.healthy = (Ok tt, s')
    ∧ length (attempted (trace s')) = 4
    ∧ ("sanity" ∉ attempted (trace s'))
    ∧ ¬ sanity_first_and_last (attempted (trace s')).
Proof.
  eexists. split; [vm_compute; reflexivity|].
  split; [reflexivity|].
  match goal with |- ?P ∧ _ => assert P as Hnot end.
  { apply (bool_decide_unpack _). vm_compute. exact I. }
  split; [exact Hnot|].
  intros (others & Heq & _). apply Hnot. rewrite Heq. apply list_elem_of_here.
Qed.

(** By default the run completes: it starts and ends with sanity. *)
Lemma C2_sanity_first_and_last_witness :
  ∃ tests s1 t s',
    ordered_tests None Demo.conversations (Demo.start Demo.healthy)
    = (Ok tests, s1)
    ∧ run_tests Demo.heap defaults Demo.conversations (Demo.start Demo.healthy)
      = (Ok t, s')
    ∧ skipped defaults "sanity" = false
    ∧ head (attempted (trace s')) = Some "sanity"
    ∧ sanity_first_and_last (attempted (trace s')).
Proof.
  do 4 eexists. split; [vm_compute; reflexivity|].
  split; [vm_compute; reflexivity|]. split; [reflexivity|].
  destruct (C2_sanity_first_and_last (H:=Demo.env) demo_randbelow_lt Demo.heap
              defaults Demo.conversations Demo.healthy) as (_ & _ & Hrun & _).
  edestruct Hrun as (_ & _ & Hsanity & _);
    [vm_compute; reflexivity | vm_compute; reflexivity |].
  destruct (Hsanity eq_refl) as [Hfirst Hlast].
  split; [exact Hfirst | exact (proj1 (Hlast _ eq_refl))].
Defined.



(** When the second sanity run fails the script exits with status 1. *)
Lemma C7_exit_status_witness :
  ∃ st s1 t s2,
    read_command_line (H:=Demo.env) [] ["sanity"]
      (Demo.start (Demo.dies_after_one Demo.AssertionError)) = (Ok st, s1)
    ∧ build_and_run st s1 = (Ok t, s2)
    ∧ executed (trace s2)
      = [("sanity", Ok tt); ("sanity", Raise Demo.AssertionError)]
    ∧ Py.interpreter_exit
        (run_main (H:=Demo.env) [] ["sanity"]
           (Demo.dies_after_one Demo.AssertionError)).1
      = Py.ExitStatus 1.
Proof.
  do 4 eexists. split; [vm_compute; reflexivity|].
  split; [vm_compute; reflexivity|]. split; [reflexivity|].
  refine (proj1 (C7_exit_status (H:=Demo.env) demo_randbelow_lt
                   [] ["sanity"] (Demo.dies_after_one Demo.AssertionError)
                   _ _ _ _ _ _) _).
  - vm_compute. reflexivity.
  - vm_compute. reflexivity.
  - apply Exists_cons_tl, Exists_cons_hd. reflexivity.
Defined.

(** C8, as stated, fails for a run of [script.py sanity] in which the
    first sanity conversation passes and the second fails: no mapping
    from names to outcomes describes it, and the result data, which is
    the same whatever the exception was, does not hold the exception. *)
Lemma C8_results_are_not_a_mapping :
  ∃ t s1 s2,
    run_tests Demo.heap Demo.only_sanity Demo.conversations
      (Demo.start (Demo.dies_after_one Demo.AssertionError)) = (Ok t, s1)
    ∧ run_tests Demo.heap Demo.only_sanity Demo.conversations
        (Demo.start (Demo.dies_after_one Demo.ConnectionRefusedError))
      = (Ok t, s2)
    ∧ t = mkTally 1 1 ["sanity"]
    ∧ executed (trace s1)
      = [("sanity", Ok tt); ("sanity", Raise Demo.AssertionError)]
    ∧ executed (trace s2)
      = [("sanity", Ok tt); ("sanity", Raise Demo.ConnectionRefusedError)]
    ∧ ¬ ∃ outcome_of : string → bool,
          ∀ r, r ∈ executed (trace s1) → outcome_of r.1 = passed r.
Proof.
  do 3 eexists. split; [vm_compute; reflexivity|].
  split; [vm_compute; reflexivity|].
  split; [reflexivity|]. split; [reflexivity|]. split; [reflexivity|].
  intros (outcome_of & Hmap).
  pose proof (Hmap ("sanity", Ok tt)) as Hfirst.
  pose proof (Hmap ("sanity", Raise Demo.AssertionError)) as Hsecond.
  unfold passed in *. simpl in *.
  rewrite Hfirst in Hsecond.
  - discriminate Hsecond. apply list_elem_of_further, list_elem_of_here.
  - apply list_elem_of_here.
Qed.

(** The result data of that run. *)
Lemma C8_result_data_witness :
  ∃ t s',
    run_tests Demo.heap Demo.only_sanity Demo.conversations
      (Demo.start (Demo.dies_after_one Demo.AssertionError)) = (Ok t, s')
    ∧ t = mkTally 1 1 ["sanity"]
    ∧ good t = length (passes (executed (trace s')))
    ∧ bad t = length (failures (executed (trace s')))
    ∧ failed t = (failures (executed (trace s'))).*1.
Proof.
  do 2 eexists. split; [vm_compute; reflexivity|]. split; [reflexivity|].
  refine (let H := C8_result_data (H:=Demo.env) demo_randbelow_lt Demo.heap
                     Demo.only_sanity Demo.conversations
                     (Demo.dies_after_one Demo.AssertionError) _ _ _ in
          conj (proj1 H) (conj (proj1 (proj2 H)) (proj1 (proj2 (proj2 H))))).
  vm_compute. reflexivity.
Defined.

(** With [-e sanity] the sanity conversation is skipped and four
    conversations are run, fewer than [min(5, 4) + 2]. *)
Lemma C9_filters_after_sampling_witness :
  ∃ r s',
    run_tests Demo.heap Demo.exclude_sanity Demo.conversations
      (Demo.start Demo.healthy) = (r, s')
    ∧ ("sanity" ∉ attempted (trace s'))
    ∧ length (attempted (trace s')) = 4
    ∧ length (attempted (trace s'))
      < Z.to_nat (Z.min 5 (Z.of_nat (length (regular_tests Demo.conversations))))
        + 2.
Proof.
  do 2 eexists. split; [vm_compute; reflexivity|].
  split; [|split; [reflexivity | vm_compute; lia]].
  refine (proj1 (C9_filters_after_sampling (H:=Demo.env) demo_randbelow_lt
                   Demo.heap Demo.exclude_sanity Demo.conversations
                   Demo.healthy _ _ _) "sanity" _).
  - vm_compute. reflexivity.
  - left. apply (bool_decide_unpack _). vm_compute. exact I.
Defined.

(** The counters of the run in which the second sanity run fails. *)
Lemma C10_counters_witness :
  ∃ t s',
    run_tests Demo.heap Demo.only_sanity Demo.conversations
      (Demo.start (Demo.dies_after_one Demo.AssertionError)) = (Ok t, s')
    ∧ good t + bad t = length (executed (trace s'))
    ∧ length (failed t) = bad t
    ∧ failed t = ["sanity"].
Proof.
  do 2 eexists. split; [vm_compute; reflexivity|].
  refine (let H := C10_counters (H:=Demo.env) demo_randbelow_lt Demo.heap
                     Demo.only_sanity Demo.conversations
                     (Demo.dies_after_one Demo.AssertionError) _ _ _ in
          conj (proj1 H) (conj (proj1 (proj2 H)) (proj1 (proj2 (proj2 H))))).
  vm_compute. reflexivity.
Defined.

(** * Further properties *)

(** ** The conversation graphs *)

Ltac each_entry tac :=
  compute_items; repeat (constructor; [tac|]); constructor.

(** Every node of the store belongs to exactly one conversation: the
    nodes of the five graphs, one graph after the other, are the
    addresses of the store in order, without gap or repetition. *)
Theorem conversations_share_no_node
    (host : string) (port : Z) (no_renego_close : bool) :
  mjoin (nodes_of (conversations_of host port no_renego_close).2
           <$> (Dict.items (conversations_of host port no_renego_close).1).*2)
  = seq 0 (length (conversations_of host port no_renego_close).2).
Proof. destruct no_renego_close; vm_compute; reflexivity. Qed.

(** The connection-opening nodes of the store are the roots of the five
    conversations, and each of them connects to the [host] and [port]
    that the graphs were built for. *)
Theorem conversations_connect_to_target
    (host : string) (port : Z) (no_renego_close : bool) :
  connect_nodes (conversations_of host port no_renego_close).2
  = (Dict.items (conversations_of host port no_renego_close).1).*2
  ∧ Forall (λ entry,
              data_at (conversations_of host port no_renego_close).2 entry.2
              = Some (Connect host port))
      (Dict.items (conversations_of host port no_renego_close).1).
Proof.
  destruct no_renego_close; (split; [vm_compute; reflexivity|]);
    each_entry ltac:(vm_compute; reflexivity).
Qed.

(** Every conversation ends in an expectation: the last node of its path
    has no child and is an expectation node. *)
Theorem conversations_end_in_expectation
    (host : string) (port : Z) (no_renego_close : bool) :
  Forall (λ entry,
            match end_of_path (conversations_of host port no_renego_close).2
                    entry.2 with
            | Some (mkTreeNode d [] _) => node_kind d = Expectation
            | _ => False
            end)
    (Dict.items (conversations_of host port no_renego_close).1).
Proof.
  destruct no_renego_close; each_entry ltac:(vm_compute; reflexivity).
Qed.

(** Without [--no-renego-close] each of the five conversations sends, in
    one or two messages, the bytes of the same complete request; with it,
    the renegotiation conversations send only what they send before the
    second handshake: nothing, or the request without its final empty
    line. *)
Theorem requests_sent (host : string) (port : Z) :
  Forall (λ entry,
            sent_application_data (conversations_of host port false).2 entry.2
            = GET_line +:+ CRLF)
    (Dict.items (conversations_of host port false).1)
  ∧ (λ entry, (entry.1,
               sent_application_data (conversations_of host port true).2
                 entry.2))
      <$> Dict.items (conversations_of host port true).1
    = [("sanity", GET_line +:+ CRLF);
       ("try secure renegotiation with GET after 2nd CH", EmptyString);
       ("try secure renegotiation with incomplete GET", GET_line);
       ("try insecure (legacy) renegotiation with GET after 2nd CH",
        EmptyString);
       ("try insecure (legacy) renegotiation with incomplete GET", GET_line)].
Proof.
  split; [each_entry ltac:(vm_compute; reflexivity) | vm_compute; reflexivity].
Qed.

(** ** The command line *)

(** Every error of [getopt] is a [GetoptError]. *)
Lemma short_has_arg_error opt shortopts :
  is_GetoptError (Getopt.short_has_arg opt shortopts).
Proof.
  induction shortopts as [|c rest IH]; simpl; [by eexists|].
  destruct (_ && _); [done | apply IH].
Qed.

Lemma long_has_args_error opt longopts :
  is_GetoptError (Getopt.long_has_args opt longopts).
Proof.
  unfold Getopt.long_has_args.
  destruct (filter _ longopts) as [|unique_match [|other others]];
    repeat case_match; simpl; eauto.
Qed.

Lemma do_shorts_error optstring shortopts :
  is_GetoptError (Getopt.do_shorts optstring shortopts).
Proof.
  induction optstring as [|opt optstring IH]; simpl; [done|].
  pose proof (short_has_arg_error opt shortopts) as Hopt.
  destruct (Getopt.short_has_arg opt shortopts) as [[]|e]; [| |done].
  - by destruct optstring.
  - by destruct (Getopt.do_shorts optstring shortopts) as [[opts wanting]|e].
Qed.

Lemma do_longs_error opt longopts :
  is_GetoptError (Getopt.do_longs opt longopts).
Proof.
  unfold Getopt.do_longs.
  destruct (match Getopt.split_at_equals opt with
            | Some (before, after) => (before, Some after)
            | None => (opt, None)
            end) as [name optarg].
  pose proof (long_has_args_error name longopts) as Hopt.
  destruct (Getopt.long_has_args name longopts) as [[[] opt']|e]; [| |done];
    destruct optarg; simpl; eauto.
Qed.

Lemma getopt_loop_cons opts arg args shortopts longopts :
  Getopt.getopt_loop opts (arg :: args) shortopts longopts
  = if String.prefix (Getopt.char Getopt.dash) arg
       && negb (String.eqb arg (Getopt.char Getopt.dash)) then
      if String.eqb arg (Getopt.char Getopt.dash +:+ Getopt.char Getopt.dash)
      then Ok (opts, args)
      else
        match read_option arg shortopts longopts with
        | Raise e => Raise e
        | Ok (new, None) =>
            Getopt.getopt_loop (opts ++ new) args shortopts longopts
        | Ok (new, Some name) =>
            match args with
            | [] => Raise (Getopt.requires_argument name)
            | optarg :: args' =>
                Getopt.getopt_loop (opts ++ new ++ [(name, optarg)]) args'
                  shortopts longopts
            end
        end
    else Ok (opts, arg :: args).
Proof. reflexivity. Qed.

Lemma read_option_error arg shortopts longopts :
  is_GetoptError (read_option arg shortopts longopts).
Proof.
  unfold read_option. destruct (String.prefix _ arg);
    [apply do_longs_error | apply do_shorts_error].
Qed.

(** Induction over the rounds of the loop of [getopt], which take one
    argument or two. *)
Lemma getopt_loop_ind (shortopts : string) (longopts : list string)
    (P : list (string * string) → list string → Prop) :
  (∀ opts, P opts []) →
  (∀ opts arg args,
     (∀ new, P (opts ++ new) args) →
     (∀ new name optarg args',
        args = optarg :: args' → P (opts ++ new ++ [(name, optarg)]) args') →
     P opts (arg :: args)) →
  ∀ opts args, P opts args.
Proof.
  intros Hnil Hcons opts args.
  remember (length args) as n eqn:Hn. revert opts args Hn.
  induction n as [n IH] using lt_wf_ind. intros opts [|arg args] Hn; [done|].
  simpl in Hn. apply Hcons.
  - intros new. apply (IH (length args)); [lia | done].
  - intros new name optarg args' ->. simpl in Hn.
    apply (IH (length args')); [lia | done].
Qed.

Lemma getopt_loop_error opts args shortopts longopts :
  is_GetoptError (Getopt.getopt_loop opts args shortopts longopts).
Proof.
  revert opts args. apply (getopt_loop_ind shortopts longopts); [done|].
  intros opts arg args IH1 IH2. rewrite getopt_loop_cons.
  destruct (_ && _); [|done]. destruct (String.eqb arg _); [done|].
  pose proof (read_option_error arg shortopts longopts) as Hread.
  destruct (read_option arg shortopts longopts) as [[new [name|]]|e];
    [| apply IH1 | done].
  destruct args as [|optarg args']; [by eexists | by apply IH2].
Qed.

Ltac among_known :=
  unfold known_options;
  repeat first [apply list_elem_of_here | apply list_elem_of_further].

Lemma script_short_has_arg opt has_arg :
  Getopt.short_has_arg opt "h:p:e:n:" = Ok has_arg →
  has_arg = true
  ∧ Getopt.char Getopt.dash +:+ Getopt.char opt ∈ known_options.
Proof.
  simpl. rewrite !andb_true_r, !andb_false_r.
  repeat match goal with
         | |- context [Ascii.eqb opt ?c] =>
             let E := fresh "E" in
             destruct (Ascii.eqb opt c) eqn:E;
             [apply Ascii.eqb_eq in E as ->; intros [= <-];
              split; [done | among_known] |]
         end.
  done.
Qed.

Lemma script_do_shorts optstring new wanting :
  Getopt.do_shorts optstring "h:p:e:n:" = Ok (new, wanting) →
  known new ∧ ∀ name, wanting = Some name → name ∈ known_options.
Proof.
  destruct optstring as [|opt optstring].
  { intros [= <- <-]. by split; [apply Forall_nil|]. }
  cbn [Getopt.do_shorts].
  destruct (Getopt.short_has_arg opt "h:p:e:n:") as [has_arg|e] eqn:Hopt;
    [|done].
  apply script_short_has_arg in Hopt as [-> Hin].
  destruct optstring; intros [= <- <-].
  - split; [apply Forall_nil_2 | intros name [= <-]; exact Hin].
  - split; [apply Forall_singleton; exact Hin | done].
Qed.

Lemma ends_with_equals_app s :
  Getopt.ends_with_equals (s +:+ Getopt.char Getopt.equals) = true.
Proof.
  induction s as [|c s IH]; [done|]. simpl.
  destruct (s +:+ Getopt.char Getopt.equals) eqn:Hs; [|done].
  by destruct s.
Qed.

Lemma script_long_has_args opt has_arg name :
  Getopt.long_has_args opt ["help"; "no-renego-close"] = Ok (has_arg, name) →
  has_arg = false
  ∧ Getopt.char Getopt.dash +:+ Getopt.char Getopt.dash +:+ name
    ∈ known_options.
Proof.
  assert (∀ o, o ∈ ["help"; "no-renego-close"] →
               opt +:+ Getopt.char Getopt.equals ≠ o) as Hne.
  { intros o Ho Heq. pose proof (ends_with_equals_app opt) as Hends.
    rewrite Heq in Hends.
    apply elem_of_cons in Ho as [->|Ho]; [done|].
    apply list_elem_of_singleton in Ho as ->. done. }
  assert (∀ o, o ∈ ["help"; "no-renego-close"] →
               Getopt.char Getopt.dash +:+ Getopt.char Getopt.dash +:+ o
               ∈ known_options) as Hin.
  { intros o [->|Ho]%elem_of_cons; [among_known|].
    apply list_elem_of_singleton in Ho as ->. among_known. }
  unfold Getopt.long_has_args.
  pose proof (list_subseteq_filter (λ o, String.prefix opt o = true)
                ["help"; "no-renego-close"]) as Hsub.
  destruct (filter _ _) as [|unique_match others] eqn:Hposs; [done|].
  destruct (bool_decide (opt ∈ _)) eqn:Hexact.
  { intros [= <- <-]. apply bool_decide_eq_true in Hexact. auto. }
  destruct (bool_decide (opt +:+ _ ∈ _)) eqn:Hequals.
  { apply bool_decide_eq_true in Hequals. by destruct (Hne _ (Hsub _ Hequals)). }
  destruct others; [|done].
  assert (unique_match ∈ ["help"; "no-renego-close"]) as Hu
    by apply Hsub, list_elem_of_here.
  assert (Getopt.ends_with_equals unique_match = false) as ->.
  { apply elem_of_cons in Hu as [->|Hu]; [done|].
    by apply list_elem_of_singleton in Hu as ->. }
  intros [= <- <-]. auto.
Qed.

Lemma script_do_longs opt new wanting :
  Getopt.do_longs opt ["help"; "no-renego-close"] = Ok (new, wanting) →
  known new ∧ ∀ name, wanting = Some name → name ∈ known_options.
Proof.
  unfold Getopt.do_longs.
  destruct (match Getopt.split_at_equals opt with
            | Some (before, after) => (before, Some after)
            | None => (opt, None)
            end) as [name optarg].
  destruct (Getopt.long_has_args name _) as [[has_arg opt']|e] eqn:Hopt;
    [|done].
  apply script_long_has_args in Hopt as [-> Hin].
  destruct optarg; [done|]. intros [= <- <-].
  split; [apply Forall_singleton; exact Hin | done].
Qed.

Lemma script_read_option arg new wanting :
  read_option arg "h:p:e:n:" ["help"; "no-renego-close"] = Ok (new, wanting) →
  known new ∧ ∀ name, wanting = Some name → name ∈ known_options.
Proof.
  unfold read_option. destruct (String.prefix _ arg);
    [apply script_do_longs | apply script_do_shorts].
Qed.

Lemma getopt_loop_known opts args opts' args' :
  known opts →
  Getopt.getopt_loop opts args "h:p:e:n:" ["help"; "no-renego-close"]
  = Ok (opts', args') →
  known opts'.
Proof.
  revert opts args.
  apply (getopt_loop_ind "h:p:e:n:" ["help"; "no-renego-close"]
           (λ opts args,
              known opts →
              Getopt.getopt_loop opts args "h:p:e:n:"
                ["help"; "no-renego-close"]
              = Ok (opts', args') →
              known opts')).
  { by intros opts Hopts [= <- <-]. }
  intros opts arg args IH1 IH2 Hopts. rewrite getopt_loop_cons.
  destruct (_ && _); [|by intros [= <- <-]].
  destruct (String.eqb arg _); [by intros [= <- <-]|].
  destruct (read_option arg _ _) as [[new [name|]]|e] eqn:Hread; [| |done].
  - apply script_read_option in Hread as [Hnew Hname].
    destruct args as [|optarg args'']; [done|].
    apply IH2; [done|]. unfold known. rewrite !Forall_app.
    split_and!; [done | done |]. apply Forall_singleton. by apply Hname.
  - apply script_read_option in Hread as [Hnew _].
    apply IH1. unfold known. by rewrite Forall_app.
Qed.

(** The options that [getopt] hands to the script are among the six that
    line 54 asks for. *)
Lemma getopt_known argv opts args :
  script_getopt argv = Ok (opts, args) → known opts.
Proof. apply getopt_loop_known, Forall_nil_2. Qed.

Lemma getopt_raise argv e :
  script_getopt argv = Raise e → ∃ msg, e = Getopt.GetoptError msg.
Proof.
  intros Hraise.
  pose proof (getopt_loop_error [] argv "h:p:e:n:" ["help"; "no-renego-close"])
    as Herr.
  unfold script_getopt, Getopt.getopt in Hraise. by rewrite Hraise in Herr.
Qed.

Section MoreProperties.

Context `{Environment}.

Hypothesis randbelow_lt : ∀ n w, 0 < n → (randbelow n w).1 < n.

Lemma handle_opts_cons opt arg opts st s :
  handle_opts ((opt, arg) :: opts) st s
  = if String.eqb opt "-h" then
      handle_opts opts
        (mkSettings arg (port st) (num_limit st) (run_exclude st)
           (no_renego_close st) (run_only st)) s
    else if String.eqb opt "-p" then
      match int arg with
      | Ok p =>
          handle_opts opts
            (mkSettings (host st) p (num_limit st) (run_exclude st)
               (no_renego_close st) (run_only st)) s
      | Raise e => (Raise e, s)
      end
    else if String.eqb opt "-e" then
      handle_opts opts
        (mkSettings (host st) (port st) (num_limit st)
           (run_exclude st ∪ {[arg]}) (no_renego_close st) (run_only st)) s
    else if String.eqb opt "-n" then
      match int arg with
      | Ok n =>
          handle_opts opts
            (mkSettings (host st) (port st) (Some n) (run_exclude st)
               (no_renego_close st) (run_only st)) s
      | Raise e => (Raise e, s)
      end
    else if String.eqb opt "--no-renego-close" then
      handle_opts opts
        (mkSettings (host st) (port st) (num_limit st) (run_exclude st)
           true (run_only st)) s
    else if String.eqb opt "--help" then
      (Raise (Py.SystemExit 0), (help_msg s).2)
    else (Raise (Py.ValueError ("Unknown option: " +:+ opt)), s).
Proof.
  simpl. unfold bind, lift, raise, Py.sys_exit.
  repeat case_match; try done.
  all: unfold help_msg, bind, print in *; simpl in *; by simplify_eq.
Qed.

Lemma help_msg_effects s :
  world (help_msg s).2 = world s
  ∧ executed (trace (help_msg s).2) = executed (trace s)
  ∧ length (trace (help_msg s).2) = length (trace s) + 12.
Proof.
  unfold help_msg, bind, print. simpl.
  rewrite <-!(assoc_L (++)), executed_app, !length_app. simpl.
  split_and!; [done | by rewrite app_nil_r | lia].
Qed.

Ltac by_option :=
  rewrite !handle_opts_cons;
  repeat (let E := fresh "E" in
          lazymatch goal with
          | |- context [String.eqb ?opt ?name] =>
              destruct (String.eqb opt name) eqn:E
          end).

(** Reading the options runs no conversation and leaves the outside as it
    is; it prints only for [--help]. *)
Lemma handle_opts_effects opts st s r s' :
  handle_opts opts st s = (r, s') →
  world s' = world s
  ∧ executed (trace s') = executed (trace s)
  ∧ (∀ st', r = Ok st' → s' = s).
Proof.
  revert st. induction opts as [|[opt arg] opts IH]; intros st.
  - simpl. unfold ret. intros [= <- <-]. done.
  - by_option; try apply IH.
    + destruct (int arg); [apply IH|]. by intros [= <- <-].
    + destruct (int arg); [apply IH|]. by intros [= <- <-].
    + intros [= <- <-]. destruct (help_msg_effects s) as (? & ? & _). done.
    + by intros [= <- <-].
Qed.

Lemma handle_opts_app opts1 opts2 st s :
  handle_opts (opts1 ++ opts2) st s
  = match handle_opts opts1 st s with
    | (Ok st', s') => handle_opts opts2 st' s'
    | (Raise e, s') => (Raise e, s')
    end.
Proof.
  revert st. induction opts1 as [|[opt arg] opts1 IH]; intros st; [done|].
  rewrite <-app_comm_cons. by_option; try apply IH; try done.
  - destruct (int arg); [apply IH | done].
  - destruct (int arg); [apply IH | done].
Qed.

Lemma handle_opts_help arg opts st s :
  handle_opts (("--help", arg) :: opts) st s
  = (Raise (Py.SystemExit 0), (help_msg s).2).
Proof. rewrite handle_opts_cons. reflexivity. Qed.

(** [--help], once [getopt] has accepted the whole command line and the
    options before it have been read without error, prints the twelve
    lines of the usage and exits with status 0: the arguments of the
    options that follow it are not converted, no conversation is run and
    the outside is left as it was. *)
Theorem help_exits_before_running argv opts1 arg opts2 args w st s1 :
  script_getopt argv = Ok (opts1 ++ ("--help", arg) :: opts2, args) →
  handle_opts opts1 defaults (mkSys w []) = (Ok st, s1) →
  (run_script argv w).1 = Raise (Py.SystemExit 0)
  ∧ Py.interpreter_exit (run_script argv w).1 = Py.ExitStatus 0
  ∧ world (run_script argv w).2 = w
  ∧ trace (run_script argv w).2 = trace (help_msg (mkSys w [])).2
  ∧ executed (trace (run_script argv w).2) = []
  ∧ length (trace (run_script argv w).2) = 12.
Proof.
  intros Hgetopt Hopts.
  destruct (handle_opts_effects _ _ _ _ _ Hopts) as (_ & _ & Hsame).
  specialize (Hsame st eq_refl). subst s1.
  assert (run_script argv w
          = (Raise (Py.SystemExit 0), (help_msg (mkSys w [])).2)) as ->.
  { unfold run_script, main_argv, main, read_command_line, bind.
    by rewrite Hgetopt, handle_opts_app, Hopts, handle_opts_help. }
  destruct (help_msg_effects (mkSys w [])) as (Hw & He & Hl).
  by split_and!.
Qed.

(** How reading the options can fail. *)
Lemma handle_opts_failure opts st s e s' :
  handle_opts opts st s = (Raise e, s') →
  (e = Py.SystemExit 0 ∧ "--help" ∈ opts.*1 ∧ s' = (help_msg s).2)
  ∨ (∃ opt, opt ∈ opts.*1 ∧ (opt ∉ known_options)
            ∧ e = Py.ValueError ("Unknown option: " +:+ opt) ∧ s' = s)
  ∨ (∃ opt arg, (opt, arg) ∈ opts ∧ (opt = "-p" ∨ opt = "-n")
                ∧ int arg = Raise e ∧ s' = s).
Proof.
  revert st. induction opts as [|[opt arg] opts IH]; intros st; [done|].
  assert (∀ st0,
            handle_opts opts st0 s = (Raise e, s') →
            (e = Py.SystemExit 0 ∧ "--help" ∈ (opt, arg).1 :: opts.*1
             ∧ s' = (help_msg s).2)
            ∨ (∃ opt0, opt0 ∈ (opt, arg).1 :: opts.*1
                       ∧ (opt0 ∉ known_options)
                       ∧ e = Py.ValueError ("Unknown option: " +:+ opt0)
                       ∧ s' = s)
            ∨ (∃ opt0 arg0, (opt0, arg0) ∈ (opt, arg) :: opts
                            ∧ (opt0 = "-p" ∨ opt0 = "-n")
                            ∧ int arg0 = Raise e ∧ s' = s))
    as IH'.
  { intros st0 [(-> & ? & ->)|[(opt0 & ? & ? & -> & ->)|(opt0 & arg0 & ? & ? & ? & ->)]]%IH.
    - left. split_and!; [done | by apply list_elem_of_further | done].
    - right; left. exists opt0.
      split_and!; [by apply list_elem_of_further | done ..].
    - right; right. exists opt0, arg0.
      split_and!; [by apply list_elem_of_further | done ..]. }
  rewrite fmap_cons.
  by_option; try apply IH'.
  - destruct (int arg) as [p|e0] eqn:Hint; [apply IH'|].
    intros [= <- <-]. right; right. exists opt, arg.
    apply String.eqb_eq in E0.
    split_and!; [apply list_elem_of_here | by left | done ..].
  - destruct (int arg) as [p|e0] eqn:Hint; [apply IH'|].
    intros [= <- <-]. right; right. exists opt, arg.
    apply String.eqb_eq in E2.
    split_and!; [apply list_elem_of_here | by right | done ..].
  - intros [= <- <-]. left. split_and!; [done | | done].
    apply String.eqb_eq in E4 as ->. apply list_elem_of_here.
  - intros [= <- <-]. right; left. exists opt.
    split_and!; [apply list_elem_of_here | | done ..].
    unfold known_options. intros Hin.
    repeat (apply elem_of_cons in Hin as [->|Hin]; [done|]).
    by apply elem_of_nil in Hin.
Qed.

(** When reading the command line fails, [main] fails in the same way
    before any conversation is built or run and without touching the
    outside.  The failure is the [GetoptError] of line 54, with nothing
    printed; or the exit of [--help], after the usage; or what [int]
    raised on the argument of a [-p] or [-n], with nothing printed.  The
    [ValueError] of line 70 is none of them: [getopt] hands over the six
    options of line 54 only. *)
Theorem command_line_errors_run_nothing argv w e s' :
  read_argv argv (mkSys w []) = (Raise e, s') →
  run_script argv w = (Raise e, s')
  ∧ world s' = w
  ∧ executed (trace s') = []
  ∧ ((∃ msg,
        script_getopt argv = Raise e ∧ e = Getopt.GetoptError msg
        ∧ trace s' = [])
     ∨ ∃ opts args,
         script_getopt argv = Ok (opts, args)
         ∧ ((e = Py.SystemExit 0 ∧ "--help" ∈ opts.*1
             ∧ trace s' = trace (help_msg (mkSys w [])).2)
            ∨ (∃ opt arg,
                 (opt, arg) ∈ opts ∧ (opt = "-p" ∨ opt = "-n")
                 ∧ int arg = Raise e ∧ trace s' = []))).
Proof.
  unfold read_argv, run_script, main_argv.
  destruct (script_getopt argv) as [[opts args]|e0] eqn:Hgetopt.
  - intros Hread. split.
    { unfold main, bind. by rewrite Hread. }
    unfold read_command_line, bind, ret in Hread.
    destruct (handle_opts opts defaults (mkSys w [])) as [[st|e0] s0] eqn:Hopts;
      [done|].
    simplify_eq.
    destruct (handle_opts_effects _ _ _ _ _ Hopts) as (Hw & He & _).
    split_and!; [done | done |]. right. exists opts, args. split; [done|].
    apply getopt_known in Hgetopt.
    apply handle_opts_failure in Hopts
      as [(-> & ? & ->)|[(opt & Hin & Hnot & _)|(opt & arg & ? & ? & ? & ->)]].
    + by left.
    + destruct Hnot.
      apply list_elem_of_fmap in Hin as (oa & -> & Hin).
      unfold known in Hgetopt. rewrite Forall_forall in Hgetopt.
      by apply Hgetopt.
    + right. by exists opt, arg.
  - intros [= <- <-]. split_and!; [done ..|]. left.
    apply getopt_raise in Hgetopt as [msg ->]. by exists msg.
Qed.

Lemma args_of_cons name opt arg opts :
  args_of name ((opt, arg) :: opts)
  = if String.eqb opt name then arg :: args_of name opts
    else args_of name opts.
Proof. unfold args_of. simpl. by destruct (String.eqb opt name). Qed.

Ltac known_option :=
  repeat match goal with
         | E : String.eqb _ _ = true |- _ => apply String.eqb_eq in E; subst
         end;
  rewrite ?args_of_cons; cbn [String.eqb Ascii.eqb Bool.eqb].

Lemma handle_opts_reads opts st0 s st s' :
  handle_opts opts st0 s = (Ok st, s') →
  host st = default (host st0) (last (args_of "-h" opts))
  ∧ match last (args_of "-p" opts) with
    | None => port st = port st0
    | Some a => int a = Ok (port st)
    end
  ∧ match last (args_of "-n" opts) with
    | None => num_limit st = num_limit st0
    | Some a => ∃ n, int a = Ok n ∧ num_limit st = Some n
    end
  ∧ run_exclude st = run_exclude st0 ∪ list_to_set (args_of "-e" opts)
  ∧ (no_renego_close st = true
     ↔ no_renego_close st0 = true ∨ "--no-renego-close" ∈ opts.*1)
  ∧ run_only st = run_only st0.
Proof.
  revert st0. induction opts as [|[opt arg] opts IH]; intros st0.
  - simpl. unfold ret. intros [= <- <-]. simpl.
    split_and!; [done | done | done | by rewrite (right_id_L ∅ (∪)) | | done].
    split; [by left|]. intros [?|[]%elem_of_nil]. done.
  - rewrite fmap_cons. by_option.
    + intros (Hh & Hp & Hn & He & Hc & Ho)%IH. known_option. simpl in *.
      rewrite last_cons.
      split_and!; [by destruct (last (args_of "-h" opts)) | done ..| | done].
      rewrite Hc, elem_of_cons. clear. intuition congruence.
    + destruct (int arg) as [p|e0] eqn:Hint; [|done].
      intros (Hh & Hp & Hn & He & Hc & Ho)%IH. known_option. simpl in *.
      rewrite last_cons. split_and!; [done | | done | done | | done].
      * destruct (last (args_of "-p" opts)); [done|]. by rewrite Hp.
      * rewrite Hc, elem_of_cons. clear. intuition congruence.
    + intros (Hh & Hp & Hn & He & Hc & Ho)%IH. known_option. simpl in *.
      split_and!; [done | done | done | | | done].
      * rewrite He. by rewrite (assoc_L (∪)).
      * rewrite Hc, elem_of_cons. clear. intuition congruence.
    + destruct (int arg) as [n|e0] eqn:Hint; [|done].
      intros (Hh & Hp & Hn & He & Hc & Ho)%IH. known_option. simpl in *.
      rewrite last_cons. split_and!; [done | done | | done | | done].
      * destruct (last (args_of "-n" opts)); [done|]. by exists n.
      * rewrite Hc, elem_of_cons. clear. intuition congruence.
    + intros (Hh & Hp & Hn & He & Hc & Ho)%IH. known_option. simpl in *.
      split_and!; [done | done | done | done | | done].
      rewrite Hc, elem_of_cons. clear. intuition congruence.
    + done.
    + done.
Qed.

(** What a command line that is read without error leaves in the
    settings: the last [-h], [-p] and [-n] win (with the defaults
    localhost, 4433 and no limit), the [-e] names accumulate into
    [run_exclude], [--no-renego-close] sets its flag, and the names given
    as arguments, if any, make up [run_only]; nothing is printed. *)
Theorem options_read opts args s st s' :
  read_command_line opts args s = (Ok st, s') →
  s' = s
  ∧ host st = default "localhost" (last (args_of "-h" opts))
  ∧ match last (args_of "-p" opts) with
    | None => port st = 4433%Z
    | Some a => int a = Ok (port st)
    end
  ∧ match last (args_of "-n" opts) with
    | None => num_limit st = None
    | Some a => ∃ n, int a = Ok n ∧ num_limit st = Some n
    end
  ∧ run_exclude st = list_to_set (args_of "-e" opts)
  ∧ (no_renego_close st = true ↔ "--no-renego-close" ∈ opts.*1)
  ∧ run_only st = match args with
                  | [] => None
                  | _ => Some (list_to_set args)
                  end.
Proof.
  intros Hread. split; [by eapply read_command_line_ok|].
  unfold read_command_line, bind, ret in Hread.
  destruct (handle_opts opts defaults s) as [[st0|e0] s0] eqn:Hopts; [|done].
  simplify_eq. simpl.
  apply handle_opts_reads in Hopts as (Hh & Hp & Hn & He & Hc & _).
  simpl in *. split_and!; [done | done | done | | | done].
  - by rewrite He, (left_id_L ∅ (∪)).
  - rewrite Hc. clear. intuition congruence.
Qed.

(** ** Before, in and after the loop *)

Lemma getitem_elem {V} (d : Dict.t V) k v :
  NoDup (Dict.keys d) → (k, v) ∈ Dict.items d → Dict.getitem k d = Ok v.
Proof.
  unfold Dict.keys, Dict.items.
  induction d as [|[k' v'] d IH]; intros Hdup Hin; [by apply elem_of_nil in Hin|].
  rewrite fmap_cons in Hdup. apply NoDup_cons in Hdup as [Hfresh Hdup].
  simpl. apply elem_of_cons in Hin as [[= -> ->]|Hin].
  - by rewrite String.eqb_refl.
  - destruct (String.eqb k' k) eqn:Heq; [|by apply IH].
    apply String.eqb_eq in Heq as ->. destruct Hfresh.
    apply list_elem_of_fmap. by exists (k, v).
Qed.

Lemma getitem_Ok {V} (d : Dict.t V) k v :
  Dict.getitem k d = Ok v → (k, v) ∈ Dict.items d.
Proof.
  unfold Dict.items. induction d as [|[k' v'] d IH]; [done|]. simpl.
  destruct (String.eqb k' k) eqn:Heq.
  - apply String.eqb_eq in Heq as ->. intros [= ->]. apply list_elem_of_here.
  - intros ?%IH. by apply list_elem_of_further.
Qed.

Lemma negative_sample_raises st conversations s sanity k :
  Dict.getitem "sanity" conversations = Ok sanity →
  num_limit st = Some k → (k < 0)%Z →
  ∀ h, run_tests h st conversations s
       = (Raise (Py.ValueError "Sample larger than population or is negative"),
          s).
Proof.
  intros Hget Hlimit Hk h.
  unfold run_tests, ordered_tests, sampled_tests, bind, lift.
  rewrite Hget, Hlimit. rewrite sample_out_of_range; [done|].
  unfold limit_or_all, Py.truthy_int.
  replace (k =? 0)%Z with false by (symmetry; apply Z.eqb_neq; lia).
  simpl. lia.
Qed.

(** A negative limit given with [-n] makes [random.sample] raise
    [ValueError]: [main] ends with that exception before any conversation
    is run, having printed nothing. *)
Theorem negative_limit_raises opts args w st s1 k :
  read_command_line opts args (mkSys w []) = (Ok st, s1) →
  num_limit st = Some k → (k < 0)%Z →
  run_main opts args w
  = (Raise (Py.ValueError "Sample larger than population or is negative"),
     mkSys w []).
Proof.
  intros Hread Hlimit Hk.
  pose proof (read_command_line_ok _ _ _ _ _ Hread) as ->.
  unfold run_main, main, bind. rewrite Hread. unfold build_and_run.
  pose proof (conversations_have_sanity (host st) (port st)
                (no_renego_close st)) as Hget.
  destruct (conversations_of _ _ _) as [conversations h]. simpl in Hget.
  by rewrite (negative_sample_raises st conversations (mkSys w []) 0 k).
Qed.

(** A loop that ends by an exception ends right after the conversation
    that raised it, which was let through by line 275: the exception is not
    an [Exception], the failure is neither reported nor counted, and the
    entries that remain are not run. *)
Theorem interrupted_loop_stops h st tests t s e s' :
  run_loop h st tests t s = (Raise e, s') →
  Py.isinstance_Exception e = false
  ∧ ∃ c_name c_test before,
      (c_name, c_test) ∈ tests
      ∧ skipped st c_name = false
      ∧ trace s'
        = trace s ++ before
          ++ [Print (c_name +:+ " ..."); Executed c_name c_test (Raise e)].
Proof. apply run_loop_aborted. Qed.

Lemma let_through_all st tests :
  (∀ entry, entry ∈ tests → skipped st entry.1 = false) →
  let_through st tests = tests.
Proof.
  unfold let_through. induction tests as [|entry tests IH]; intros Hall; [done|].
  rewrite filter_cons_True by (apply Hall, list_elem_of_here).
  f_equal. apply IH. intros ? ?. by apply Hall, list_elem_of_further.
Qed.

Lemma let_through_none st tests :
  (∀ entry, entry ∈ tests → skipped st entry.1 = true) →
  let_through st tests = [].
Proof.
  unfold let_through. induction tests as [|entry tests IH]; intros Hall; [done|].
  rewrite filter_cons_False.
  - apply IH. intros ? ?. by apply Hall, list_elem_of_further.
  - rewrite (Hall entry) by apply list_elem_of_here. done.
Qed.

Lemma executed_in_loop_events c_name c_test outcome done :
  Executed c_name c_test outcome ∈ loop_events done →
  (c_name, c_test, outcome) ∈ done.
Proof.
  unfold loop_events. intros ([[name c] o] & Hev & Hin)%list_elem_of_bind.
  simpl in Hev. unfold events_for in Hev.
  assert (Executed c_name c_test outcome = Executed name c o) as [= -> -> ->];
    [|done].
  apply elem_of_app in Hev as [Hev|Hev].
  - apply elem_of_cons in Hev as [?|Hev]; [done|].
    by apply list_elem_of_singleton in Hev.
  - destruct o as [[]|e].
    + by apply list_elem_of_singleton in Hev.
    + destruct (Py.isinstance_Exception e); [|by apply elem_of_nil in Hev].
      apply elem_of_cons in Hev as [?|Hev]; [done|].
      by apply list_elem_of_singleton in Hev.
Qed.

(** The ordered tests come from the dict: each entry is filed there under
    its name. *)
Lemma ordered_entries_in_dict conversations sanity sampled entry :
  Dict.getitem "sanity" conversations = Ok sanity →
  sampled ⊆+ regular_tests conversations →
  entry ∈ ("sanity", sanity) :: sampled ++ [("sanity", sanity)] →
  entry ∈ Dict.items conversations.
Proof.
  intros Hget%getitem_Ok Hsub Hin.
  apply elem_of_cons in Hin as [->|Hin]; [done|].
  apply elem_of_app in Hin as [Hin|Hin];
    [|by apply list_elem_of_singleton in Hin as ->].
  eapply elem_of_submseteq in Hin; [|done].
  by apply list_elem_of_filter in Hin as [_ ?].
Qed.

(** [runner.run()] is only ever called on a graph of the dict, the one
    filed under the name that is printed, and only for a name that
    line 275 lets through. *)
Theorem runs_only_dict_entries h st conversations w r s'
    c_name c_test outcome :
  NoDup (Dict.keys conversations) →
  run_tests h st conversations (mkSys w []) = (r, s') →
  Executed c_name c_test outcome ∈ trace s' →
  Dict.getitem c_name conversations = Ok c_test
  ∧ skipped st c_name = false.
Proof.
  intros Hdup Hrun.
  destruct (run_tests_inv randbelow_lt _ _ _ _ _ _ Hrun)
    as [[Htr _]|(sanity & sampled & s1 & Hget & Hsam & Htr & Hloop)].
  { rewrite Htr. by intros ?%elem_of_nil. }
  apply run_loop_spec in Hloop as (outcomes & _ & Htrace & _).
  rewrite Htr in Htrace. rewrite Htrace. simpl.
  intros Hin%executed_in_loop_events. apply elem_of_zip_l in Hin.
  pose proof (let_through_not_skipped _ _ _ Hin) as Hskip.
  apply list_elem_of_filter in Hin as [_ Hin].
  destruct (sampled_tests_inv randbelow_lt _ _ _ _ _ Hsam) as (_ & Hsub & _).
  split; [|done]. apply getitem_elem; [done|].
  by eapply ordered_entries_in_dict.
Qed.

Lemma sublist_filter_mono {A} (P : A → Prop) `{!∀ x, Decision (P x)}
    (l k : list A) :
  l `sublist_of` k → filter P l `sublist_of` filter P k.
Proof.
  induction 1 as [|x l k _ IH|x l k _ IH]; [done | |].
  - destruct (decide (P x)).
    + rewrite !filter_cons_True by done. by constructor.
    + by rewrite !filter_cons_False by done.
  - destruct (decide (P x)).
    + rewrite (filter_cons_True _ _ k) by done. by constructor.
    + by rewrite (filter_cons_False _ _ k) by done.
Qed.

(** What a run attempts is a part, in order, of the ordered tests. *)
Lemma attempted_sublist h st conversations w r s' :
  run_tests h st conversations (mkSys w []) = (r, s') →
  attempted (trace s') = []
  ∨ ∃ sampled s1,
      sampled_tests (num_limit st) conversations (mkSys w [])
      = (Ok sampled, s1)
      ∧ attempted (trace s')
        `sublist_of` "sanity" :: sampled.*1 ++ ["sanity"].
Proof.
  intros Hrun.
  destruct (run_tests_inv randbelow_lt _ _ _ _ _ _ Hrun)
    as [[Htr _]|(sanity & sampled & s1 & Hget & Hsam & Htr & Hloop)].
  { left. by rewrite Htr. }
  right. exists sampled, s1. split; [done|].
  apply run_loop_spec in Hloop as (outcomes & _ & Htrace & _).
  rewrite Htr in Htrace. rewrite Htrace. simpl.
  rewrite attempted_loop_events.
  change ("sanity" :: sampled.*1 ++ ["sanity"])
    with (("sanity", sanity).1 :: sampled.*1 ++ [("sanity", sanity)].*1).
  rewrite <-fmap_app, <-fmap_cons. apply fmap_sublist.
  etrans; [apply sublist_take|]. apply sublist_filter.
Qed.

(** In one run no conversation other than sanity is run twice, and sanity
    is run at most twice. *)
Theorem no_conversation_run_twice h st conversations w r s' :
  NoDup (Dict.keys conversations) →
  run_tests h st conversations (mkSys w []) = (r, s') →
  NoDup (filter (λ name, name ≠ "sanity") (attempted (trace s')))
  ∧ length (filter (λ name, name = "sanity") (attempted (trace s'))) ≤ 2.
Proof.
  intros Hdup [->|(sampled & s1 & Hsam & Hsub)]%attempted_sublist.
  { split; [constructor | simpl; lia]. }
  destruct (sampled_tests_inv randbelow_lt _ _ _ _ _ Hsam) as (_ & Hsubm & Hnames).
  assert (NoDup sampled.*1) as Hnodup.
  { eapply submseteq_NoDup; [by apply fmap_submseteq|].
    by apply regular_tests_NoDup. }
  assert (∀ P `{!∀ x, Decision (P x)},
            P "sanity" → (∀ name, name ∈ sampled.*1 → ¬ P name) →
            filter P ("sanity" :: sampled.*1 ++ ["sanity"])
            = ["sanity"; "sanity"]) as Hsanity.
  { intros P ? Hs Hothers. rewrite filter_cons_True, filter_app by done.
    rewrite (filter_cons_True _ _ []) by done. f_equal.
    clear -Hothers. induction (sampled.*1) as [|x l IH]; [done|].
    rewrite filter_cons_False by (apply Hothers, list_elem_of_here).
    apply IH. intros ? ?. by apply Hothers, list_elem_of_further. }
  assert (∀ name, name ∈ sampled.*1 → name ≠ "sanity") as Hne.
  { intros name ([n c] & -> & Hin)%list_elem_of_fmap.
    rewrite Forall_forall in Hnames. by apply Hnames in Hin. }
  split.
  - eapply sublist_NoDup; [|by apply sublist_filter_mono].
    rewrite filter_cons_False by (by intros []).
    rewrite filter_app, (filter_cons_False _ _ []) by (by intros []).
    rewrite app_nil_r. by apply NoDup_filter.
  - apply (sublist_filter_mono (λ name, name = "sanity")) in Hsub.
    apply sublist_length in Hsub.
    rewrite Hsanity in Hsub; [done | done |].
    intros name Hin Heq. by apply Hne in Hin.
Qed.

Lemma nothing_skipped st c_name :
  run_only st = None → run_exclude st = ∅ → skipped st c_name = false.
Proof.
  intros Honly Hexclude. unfold skipped, Py.contains.
  rewrite Honly, Hexclude. apply bool_decide_eq_false_2, not_elem_of_empty.
Qed.

(** With neither names nor [-e] on the command line, a loop that
    completes has run the sampled conversations and sanity twice:
    [min(k, M) + 2] conversations for a limit [k >= 1], [M + 2] for a limit
    of 0 or none, each of them counted in [good] or in [bad]. *)
Theorem unfiltered_run_count h st conversations w t s' :
  run_only st = None → run_exclude st = ∅ →
  run_tests h st conversations (mkSys w []) = (Ok t, s') →
  length (attempted (trace s'))
  = match num_limit st with
    | Some k =>
        if (k =? 0)%Z then length (regular_tests conversations)
        else Z.to_nat k `min` length (regular_tests conversations)
    | None => length (regular_tests conversations)
    end + 2
  ∧ good t + bad t = length (attempted (trace s')).
Proof.
  intros Honly Hexclude Hrun.
  destruct (run_tests_completed randbelow_lt _ _ _ _ _ _ Hrun)
    as (sanity & sampled & s1 & outcomes & Hget & Hsam & Hlen & _ & Htr & _).
  destruct (run_tests_tally randbelow_lt _ _ _ _ _ _ Hrun) as (Hg & Hb & _).
  split.
  - rewrite Htr, attempted_completed by done.
    rewrite let_through_all by (intros; by apply nothing_skipped).
    rewrite fmap_cons, fmap_app, length_cons, length_app, !length_fmap.
    simpl. unfold sampled_tests in Hsam.
    apply (sample_inv randbelow_lt) in Hsam as (Hrange & _ & Hsize & _).
    rewrite Hsize. rewrite sample_size; [rewrite Nat2Z.id; lia|].
    intros k Hk. rewrite Hk in Hrange. unfold limit_or_all, Py.truthy_int in Hrange.
    destruct (k =? 0)%Z eqn:Hz; simpl in Hrange; lia.
  - rewrite Hg, Hb, passes_failures_length. unfold attempted.
    by rewrite length_fmap.
Qed.

(** When names are given on the command line and none of them is the
    name of a conversation, nothing is run and nothing is printed by the
    loop; a loop that completes leaves both counters at 0. *)
Theorem unmatched_names_run_nothing h st conversations w only r s' :
  run_only st = Some only → only ≠ ∅ →
  (∀ name, name ∈ Dict.keys conversations → name ∉ only) →
  run_tests h st conversations (mkSys w []) = (r, s') →
  trace s' = [] ∧ ∀ t, r = Ok t → t = mkTally 0 0 [].
Proof.
  intros Honly Hne Hnone Hrun.
  destruct (run_tests_inv randbelow_lt _ _ _ _ _ _ Hrun)
    as [[Htr [e ->]]|(sanity & sampled & s1 & Hget & Hsam & Htr & Hloop)];
    [done|].
  destruct (sampled_tests_inv randbelow_lt _ _ _ _ _ Hsam) as (_ & Hsub & _).
  apply run_loop_spec in Hloop as (outcomes & _ & Htrace & Hres).
  rewrite let_through_none in Htrace, Hres.
  - rewrite Htr in Htrace. simpl in *. split; [done|].
    intros t ->. by destruct Hres as (_ & _ & ->).
  - intros [name c_test] Hin. apply skipped_iff. right.
    exists only. split_and!; [done | done |]. apply Hnone.
    eapply (ordered_entries_in_dict conversations) in Hin; [|done|done].
    unfold Dict.keys. apply list_elem_of_fmap. by exists (name, c_test).
  - intros [name c_test] Hin. apply skipped_iff. right.
    exists only. split_and!; [done | done |]. apply Hnone.
    eapply (ordered_entries_in_dict conversations) in Hin; [|done|done].
    unfold Dict.keys. apply list_elem_of_fmap. by exists (name, c_test).
Qed.

(** After a loop that completes, [main] prints six more lines and does
    nothing else: the title, the version, "Test end", the number of
    conversations that passed, the number that failed, and the sorted
    names of the failed ones. *)
Theorem summary_reports_counts opts args w st s1 t s2 :
  read_command_line opts args (mkSys w []) = (Ok st, s1) →
  build_and_run st s1 = (Ok t, s2) →
  world (run_main opts args w).2 = world s2
  ∧ trace (run_main opts args w).2
    = trace s2
      ++ [Print "Verify that the server disabled renegotiation (both legacy and secure)";
          Print ("version: 1" +:+ LF);
          Print "Test end";
          Print ("successful: "
                 +:+ pretty (length (passes (executed (trace s2)))));
          Print ("failed: "
                 +:+ pretty (length (failures (executed (trace s2)))));
          Print ("  "
                 +:+ join (LF +:+ "  ")
                       (repr <$> sorted_natural
                                   (failures (executed (trace s2))).*1))].
Proof.
  intros Hread Hrun.
  assert (run_main opts args w = summary t s2) as ->.
  { unfold run_main, main, bind. by rewrite Hread, Hrun. }
  apply read_command_line_ok in Hread as ->.
  unfold build_and_run in Hrun.
  destruct (conversations_of _ _ _) as [conversations h].
  apply (run_tests_tally randbelow_lt) in Hrun as (Hg & Hb & Hf).
  rewrite <-Hg, <-Hb, <-Hf.
  unfold summary, bind, print, lift, ret, Py.sys_exit. simpl.
  destruct (decide (0 < bad t)); simpl; by rewrite <-!(assoc_L (++)).
Qed.

(** With no limit, a limit of 0, or a limit of at least the number of
    non-sanity conversations, the sample is all of them, each once, in
    some order. *)
Theorem unlimited_sample_is_everything num_limit conversations s sampled s' :
  num_limit = None
  ∨ num_limit = Some 0%Z
  ∨ (∃ k, num_limit = Some k
          ∧ (Z.of_nat (length (regular_tests conversations)) ≤ k)%Z) →
  sampled_tests num_limit conversations s = (Ok sampled, s') →
  sampled ≡ₚ regular_tests conversations.
Proof.
  intros Hlimit Hsam. unfold sampled_tests in Hsam.
  apply (sample_inv randbelow_lt) in Hsam as (_ & _ & Hsize & Hsub).
  apply submseteq_length_Permutation; [done|].
  rewrite Hsize. pose proof (regular_tests_length conversations).
  unfold limit_or_all, Py.truthy_int.
  destruct Hlimit as [->|[->|(k & -> & Hk)]]; simpl; [lia | lia |].
  destruct (k =? 0)%Z; simpl; lia.
Qed.

(** By default, with no names, no [-e] and no limit (or a limit of 0), a
    loop that completes has run every conversation of the dict other than
    sanity exactly once, and sanity twice. *)
Theorem default_run_covers_everything h st conversations w t s' :
  run_only st = None → run_exclude st = ∅ →
  num_limit st = None ∨ num_limit st = Some 0%Z →
  run_tests h st conversations (mkSys w []) = (Ok t, s') →
  attempted (trace s')
  ≡ₚ "sanity" :: "sanity" :: (regular_tests conversations).*1.
Proof.
  intros Honly Hexclude Hlimit Hrun.
  destruct (run_tests_completed randbelow_lt _ _ _ _ _ _ Hrun)
    as (sanity & sampled & s1 & outcomes & Hget & Hsam & Hlen & _ & Htr & _).
  rewrite Htr, attempted_completed by done.
  rewrite let_through_all by (intros; by apply nothing_skipped).
  unfold sampled_tests in Hsam.
  apply (sample_inv randbelow_lt) in Hsam as (_ & _ & Hsize & Hsub).
  assert (sampled ≡ₚ regular_tests conversations) as <-.
  { apply submseteq_length_Permutation; [done|].
    rewrite Hsize. pose proof (regular_tests_length conversations).
    unfold limit_or_all, Py.truthy_int. destruct Hlimit as [->| ->]; simpl; lia. }
  rewrite fmap_cons, fmap_app. simpl. constructor.
  by rewrite Permutation_app_comm.
Qed.

(** The loop only adds to its three variables and to the output: the
    counters never go down and nothing is ever taken off [failed] or off
    what was printed. *)
Theorem tally_only_grows h st tests t s t' s' :
  run_loop h st tests t s = (Ok t', s') →
  good t ≤ good t' ∧ bad t ≤ bad t'
  ∧ failed t `prefix_of` failed t'
  ∧ trace s `prefix_of` trace s'.
Proof.
  intros (outcomes & _ & Htrace & _ & _ & ->)%run_loop_spec.
  destruct (tally_after_spec (zip (let_through st tests) outcomes) t)
    as (Hg & Hb & Hf).
  rewrite Hg, Hb, Hf, Htrace.
  split_and!; [lia | lia | by apply prefix_app_r | by apply prefix_app_r].
Qed.

(** In the output of a completed loop, each conversation that passed
    stands between the line with its name and the line "OK". *)
Theorem pass_reported h st tests t s t' s' c_name c_test :
  run_loop h st tests t s = (Ok t', s') →
  Executed c_name c_test (Ok tt) ∈ trace s' →
  Executed c_name c_test (Ok tt) ∈ trace s
  ∨ ∃ before after,
      trace s'
      = before ++ [Print (c_name +:+ " ...");
                   Executed c_name c_test (Ok tt);
                   Print ("OK" +:+ LF)] ++ after.
Proof.
  intros (outcomes & _ & Htrace & _)%run_loop_spec. rewrite Htrace.
  intros [?|Hin]%elem_of_app; [by left|]. right.
  apply executed_in_loop_events in Hin.
  apply list_elem_of_split in Hin as (d1 & d2 & ->).
  exists (trace s ++ loop_events d1), (loop_events d2).
  unfold loop_events. rewrite bind_app. simpl. unfold events_for at 2.
  by rewrite <-!(assoc_L (++)).
Qed.

End MoreProperties.

(** ** The further properties on a concrete outside *)

(** [-p 4433 --help -n x] prints the usage and exits with status 0; the
    [x] is not looked at. *)
Lemma help_exits_before_running_witness :
  ∃ st s1,
    script_getopt ["-p"; "4433"; "--help"; "-n"; "x"]
    = Ok ([("-p", "4433")] ++ ("--help", EmptyString) :: [("-n", "x")], [])
    ∧ handle_opts (H:=Demo.env) [("-p", "4433")] defaults
        (Demo.start Demo.healthy) = (Ok st, s1)
    ∧ Py.interpreter_exit
        (run_script (H:=Demo.env) ["-p"; "4433"; "--help"; "-n"; "x"]
           Demo.healthy).1
      = Py.ExitStatus 0
    ∧ length
        (trace (run_script (H:=Demo.env) ["-p"; "4433"; "--help"; "-n"; "x"]
                  Demo.healthy).2)
      = 12.
Proof.
  do 2 eexists. split; [vm_compute; reflexivity|].
  split; [vm_compute; reflexivity|].
  pose proof (help_exits_before_running (H:=Demo.env)
                ["-p"; "4433"; "--help"; "-n"; "x"]
                [("-p", "4433")] EmptyString [("-n", "x")] []
                Demo.healthy _ _ eq_refl eq_refl)
    as (_ & Hexit & _ & _ & _ & Hlength).
  split; [exact Hexit | exact Hlength].
Defined.

(** [--help -x] fails in [getopt]: nothing is printed, not even the
    usage, and nothing is run. *)
Lemma command_line_errors_run_nothing_witness :
  read_argv (H:=Demo.env) ["--help"; "-x"] (Demo.start Demo.healthy)
  = (Raise (Getopt.GetoptError "option -x not recognized"),
     Demo.start Demo.healthy)
  ∧ run_script (H:=Demo.env) ["--help"; "-x"] Demo.healthy
    = (Raise (Getopt.GetoptError "option -x not recognized"),
       Demo.start Demo.healthy).
Proof.
  split; [vm_compute; reflexivity|].
  refine (proj1 (command_line_errors_run_nothing (H:=Demo.env)
                   ["--help"; "-x"] Demo.healthy _ _ _)).
  vm_compute. reflexivity.
Defined.

(** [-e a -n 2 -e b sanity]: both names are excluded. *)
Lemma options_read_witness :
  ∃ st s',
    read_command_line (H:=Demo.env) [("-e", "a"); ("-n", "2"); ("-e", "b")]
      ["sanity"] (Demo.start Demo.healthy) = (Ok st, s')
    ∧ run_exclude st = list_to_set ["a"; "b"].
Proof.
  do 2 eexists. split; [vm_compute; reflexivity|].
  refine (proj1 (proj2 (proj2 (proj2 (proj2
            (options_read (H:=Demo.env)
               [("-e", "a"); ("-n", "2"); ("-e", "b")] ["sanity"]
               (Demo.start Demo.healthy) _ _ _)))))).
  vm_compute. reflexivity.
Defined.

(** [-n -1] ends in [ValueError]. *)
Lemma negative_limit_raises_witness :
  ∃ st s1,
    read_command_line (H:=Demo.env) [("-n", "-1")] []
      (Demo.start Demo.healthy) = (Ok st, s1)
    ∧ num_limit st = Some (-1)%Z
    ∧ run_main (H:=Demo.env) [("-n", "-1")] [] Demo.healthy
      = (Raise (Py.ValueError "Sample larger than population or is negative"),
         Demo.start Demo.healthy).
Proof.
  do 2 eexists. split; [vm_compute; reflexivity|]. split; [reflexivity|].
  refine (negative_limit_raises (H:=Demo.env) [("-n", "-1")] []
            Demo.healthy _ _ (-1)%Z _ _ _).
  - vm_compute. reflexivity.
  - reflexivity.
  - lia.
Defined.

(** A [KeyboardInterrupt] in the first sanity run ends the loop there. *)
Lemma interrupted_loop_stops_witness :
  ∃ s',
    run_loop (H:=Demo.env) Demo.heap defaults
      [("sanity", 0); ("try secure renegotiation with incomplete GET", 34)]
      (mkTally 0 0 [])
      (Demo.start (Demo.mkState 0 [Raise Py.KeyboardInterrupt]))
    = (Raise Py.KeyboardInterrupt, s')
    ∧ Py.isinstance_Exception Py.KeyboardInterrupt = false
    ∧ attempted (trace s') = ["sanity"].
Proof.
  eexists. split; [vm_compute; reflexivity|]. split; [|reflexivity].
  refine (proj1 (interrupted_loop_stops (H:=Demo.env) Demo.heap defaults
                   [("sanity", 0);
                    ("try secure renegotiation with incomplete GET", 34)]
                   (mkTally 0 0 [])
                   (Demo.start (Demo.mkState 0 [Raise Py.KeyboardInterrupt]))
                   Py.KeyboardInterrupt _ _)).
  vm_compute. reflexivity.
Defined.

(** The sanity run of a default run is on the graph filed as "sanity". *)
Lemma runs_only_dict_entries_witness :
  ∃ r s',
    run_tests (H:=Demo.env) Demo.heap defaults Demo.conversations
      (Demo.start Demo.healthy) = (r, s')
    ∧ Executed "sanity" 0 (Ok tt) ∈ trace s'
    ∧ Dict.getitem "sanity" Demo.conversations = Ok 0.
Proof.
  do 2 eexists. split; [vm_compute; reflexivity|].
  split; [simpl; apply list_elem_of_further, list_elem_of_here|].
  refine (proj1 (runs_only_dict_entries (H:=Demo.env) demo_randbelow_lt
                   Demo.heap defaults Demo.conversations Demo.healthy
                   _ _ "sanity" 0 (Ok tt) _ _ _)).
  - apply (bool_decide_unpack _). vm_compute. exact I.
  - vm_compute. reflexivity.
  - simpl. apply list_elem_of_further, list_elem_of_here.
Defined.

(** In a default run only sanity is run twice. *)
Lemma no_conversation_run_twice_witness :
  ∃ r s',
    run_tests (H:=Demo.env) Demo.heap defaults Demo.conversations
      (Demo.start Demo.healthy) = (r, s')
    ∧ length (attempted (trace s')) = 6
    ∧ NoDup (filter (λ name, name ≠ "sanity") (attempted (trace s'))).
Proof.
  do 2 eexists. split; [vm_compute; reflexivity|]. split; [reflexivity|].
  refine (proj1 (no_conversation_run_twice (H:=Demo.env) demo_randbelow_lt
                   Demo.heap defaults Demo.conversations Demo.healthy
                   _ _ _ _)).
  - apply (bool_decide_unpack _). vm_compute. exact I.
  - vm_compute. reflexivity.
Defined.

(** A default run of the script runs six conversations. *)
Lemma unfiltered_run_count_witness :
  ∃ t s',
    run_tests (H:=Demo.env) Demo.heap defaults Demo.conversations
      (Demo.start Demo.healthy) = (Ok t, s')
    ∧ length (attempted (trace s')) = 6
    ∧ good t + bad t = length (attempted (trace s')).
Proof.
  do 2 eexists. split; [vm_compute; reflexivity|]. split; [reflexivity|].
  refine (proj2 (unfiltered_run_count (H:=Demo.env) demo_randbelow_lt
                   Demo.heap defaults Demo.conversations Demo.healthy
                   _ _ _ _ _)).
  - reflexivity.
  - reflexivity.
  - vm_compute. reflexivity.
Defined.

(** A misspelled name on the command line: nothing is run. *)
Lemma unmatched_names_run_nothing_witness :
  ∃ r s',
    run_tests (H:=Demo.env) Demo.heap
      (mkSettings "localhost" 4433 None ∅ false (Some {["sanitty"]}))
      Demo.conversations (Demo.start Demo.healthy) = (r, s')
    ∧ r = Ok (mkTally 0 0 [])
    ∧ trace s' = [].
Proof.
  do 2 eexists. split; [vm_compute; reflexivity|]. split; [reflexivity|].
  refine (proj1 (unmatched_names_run_nothing (H:=Demo.env) demo_randbelow_lt
                   Demo.heap
                   (mkSettings "localhost" 4433 None ∅ false
                      (Some {["sanitty"]}))
                   Demo.conversations Demo.healthy {["sanitty"]}
                   _ _ _ _ _ _)).
  - reflexivity.
  - apply (bool_decide_unpack _). vm_compute. exact I.
  - apply Forall_forall. apply (bool_decide_unpack _). vm_compute. exact I.
  - vm_compute. reflexivity.
Defined.

(** The summary after a run in which the second sanity run fails. *)
Lemma summary_reports_counts_witness :
  ∃ st s1 t s2,
    read_command_line (H:=Demo.env) [] ["sanity"]
      (Demo.start (Demo.dies_after_one Demo.AssertionError)) = (Ok st, s1)
    ∧ build_and_run st s1 = (Ok t, s2)
    ∧ world (run_main (H:=Demo.env) [] ["sanity"]
               (Demo.dies_after_one Demo.AssertionError)).2
      = world s2.
Proof.
  do 4 eexists. split; [vm_compute; reflexivity|].
  split; [vm_compute; reflexivity|].
  refine (proj1 (summary_reports_counts (H:=Demo.env) demo_randbelow_lt
                   [] ["sanity"] (Demo.dies_after_one Demo.AssertionError)
                   _ _ _ _ _ _)).
  - vm_compute. reflexivity.
  - vm_compute. reflexivity.
Defined.

(** Without a limit the sample is a rearrangement of the four
    non-sanity conversations. *)
Lemma unlimited_sample_is_everything_witness :
  ∃ sampled s',
    sampled_tests (H:=Demo.env) None Demo.conversations
      (Demo.start Demo.healthy) = (Ok sampled, s')
    ∧ sampled ≡ₚ regular_tests Demo.conversations.
Proof.
  do 2 eexists. split; [vm_compute; reflexivity|].
  refine (unlimited_sample_is_everything (H:=Demo.env) demo_randbelow_lt
            None Demo.conversations (Demo.start Demo.healthy) _ _ _ _).
  - by left.
  - vm_compute. reflexivity.
Defined.

(** A default run runs all five conversations, sanity twice. *)
Lemma default_run_covers_everything_witness :
  ∃ t s',
    run_tests (H:=Demo.env) Demo.heap defaults Demo.conversations
      (Demo.start Demo.healthy) = (Ok t, s')
    ∧ attempted (trace s')
      ≡ₚ "sanity" :: "sanity" :: (regular_tests Demo.conversations).*1.
Proof.
  do 2 eexists. split; [vm_compute; reflexivity|].
  refine (default_run_covers_everything (H:=Demo.env) demo_randbelow_lt
            Demo.heap defaults Demo.conversations Demo.healthy
            _ _ _ _ _ _).
  - reflexivity.
  - reflexivity.
  - by left.
  - vm_compute. reflexivity.
Defined.

(** The tally of a loop over sanity alone, failing the second time. *)
Lemma tally_only_grows_witness :
  ∃ t' s',
    run_loop (H:=Demo.env) Demo.heap defaults [("sanity", 0); ("sanity", 0)]
      (mkTally 0 0 [])
      (Demo.start (Demo.dies_after_one Demo.AssertionError)) = (Ok t', s')
    ∧ t' = mkTally 1 1 ["sanity"]
    ∧ 0 ≤ good t'.
Proof.
  do 2 eexists. split; [vm_compute; reflexivity|]. split; [reflexivity|].
  refine (proj1 (tally_only_grows (H:=Demo.env) Demo.heap defaults
                   [("sanity", 0); ("sanity", 0)] (mkTally 0 0 [])
                   (Demo.start (Demo.dies_after_one Demo.AssertionError))
                   _ _ _)).
  vm_compute. reflexivity.
Defined.

(** The first sanity run of that loop is reported as passed. *)
Lemma pass_reported_witness :
  ∃ t' s',
    run_loop (H:=Demo.env) Demo.heap defaults [("sanity", 0); ("sanity", 0)]
      (mkTally 0 0 [])
      (Demo.start (Demo.dies_after_one Demo.AssertionError)) = (Ok t', s')
    ∧ Executed "sanity" 0 (Ok tt) ∈ trace s'
    ∧ (Executed "sanity" 0 (Ok tt)
       ∈ trace (Demo.start (Demo.dies_after_one Demo.AssertionError))
       ∨ ∃ before after,
           trace s'
           = before ++ [Print "sanity ..."; Executed "sanity" 0 (Ok tt);
                        Print ("OK" +:+ LF)] ++ after).
Proof.
  do 2 eexists. split; [vm_compute; reflexivity|].
  split; [simpl; apply list_elem_of_further, list_elem_of_here|].
  refine (pass_reported (H:=Demo.env) Demo.heap defaults
            [("sanity", 0); ("sanity", 0)] (mkTally 0 0 [])
            (Demo.start (Demo.dies_after_one Demo.AssertionError))
            _ _ "sanity" 0 _ _).
  - vm_compute. reflexivity.
  - simpl. apply list_elem_of_further, list_elem_of_here.
Defined.

(** ** The hellos of the five conversations *)

(** Whatever the host, the port and [--no-renego-close]: the sanity
    conversation sends one ClientHello, which offers the SCSV beside the
    cipher suite; each renegotiation conversation sends two, the second
    with an empty session id; the secure ones carry the
    [renegotiation_info] extension in both, the insecure ones carry no
    extension and no SCSV. *)
Theorem client_hellos_sent
    (host : string) (port : Z) (no_renego_close : bool) :
  (λ entry,
     (entry.1,
      omap (data_at (conversations_of host port no_renego_close).2)
        (client_hellos (conversations_of host port no_renego_close).2
           entry.2)))
    <$> Dict.items (conversations_of host port no_renego_close).1
  = [("sanity",
      [ClientHelloGenerator
         [CipherSuite.TLS_RSA_WITH_AES_128_CBC_SHA;
          CipherSuite.TLS_EMPTY_RENEGOTIATION_INFO_SCSV] None None]);
     ("try secure renegotiation with GET after 2nd CH",
      [ClientHelloGenerator [CipherSuite.TLS_RSA_WITH_AES_128_CBC_SHA] None
         (Some [(ExtensionType.renegotiation_info, None)]);
       ClientHelloGenerator [CipherSuite.TLS_RSA_WITH_AES_128_CBC_SHA]
         (Some EmptyString)
         (Some [(ExtensionType.renegotiation_info, None)])]);
     ("try secure renegotiation with incomplete GET",
      [ClientHelloGenerator [CipherSuite.TLS_RSA_WITH_AES_128_CBC_SHA] None
         (Some [(ExtensionType.renegotiation_info, None)]);
       ClientHelloGenerator [CipherSuite.TLS_RSA_WITH_AES_128_CBC_SHA]
         (Some EmptyString)
         (Some [(ExtensionType.renegotiation_info, None)])]);
     ("try insecure (legacy) renegotiation with GET after 2nd CH",
      [ClientHelloGenerator [CipherSuite.TLS_RSA_WITH_AES_128_CBC_SHA] None
         None;
       ClientHelloGenerator [CipherSuite.TLS_RSA_WITH_AES_128_CBC_SHA]
         (Some EmptyString) None]);
     ("try insecure (legacy) renegotiation with incomplete GET",
      [ClientHelloGenerator [CipherSuite.TLS_RSA_WITH_AES_128_CBC_SHA] None
         None;
       ClientHelloGenerator [CipherSuite.TLS_RSA_WITH_AES_128_CBC_SHA]
         (Some EmptyString) None])].
Proof. destruct no_renego_close; vm_compute; reflexivity. Qed.
